(** * ConfigurationResolverService: interactive resolution of input and command variables

    A shallow embedding of
    [src/vs/workbench/services/configurationResolver/browser/configurationResolverService.ts]
    and the properties of its variable scanner, input resolver, command
    resolver, orchestrator and mapping aggregator. *)

From Stdlib Require Import ZArith Ascii String List Lia.
From stdpp Require Import base option strings list gmap fin_maps.

Local Open Scope string_scope.
Local Open Scope list_scope.

(** ** JavaScript values

    The configuration is typed [any]: a JSON-like value.  A string is held as
    the bytes of its UTF-8 encoding, which keeps equality, emptiness and every
    character of the pattern and of [split] as they are; an object is the list of its own
    enumerable properties in the order in which [Object.keys] enumerates them.
    The payload of a number matters only through its truthiness. *)

#[local] Unset Elimination Schemes.
Inductive JsVal : Type :=
| JUndefined : JsVal
| JNull : JsVal
| JBool (b : bool) : JsVal
| JNum (n : Z) : JsVal
| JStr (s : string) : JsVal
| JArr (elements : list JsVal) : JsVal
| JObj (properties : list (string * JsVal)) : JsVal.
#[local] Set Elimination Schemes.

(** Induction principle that reaches the values nested in arrays and objects. *)
Section JsVal_nested_ind.
Variable P : JsVal -> Prop.
Hypothesis Hundef : P JUndefined.
Hypothesis Hnull : P JNull.
Hypothesis Hbool : forall b, P (JBool b).
Hypothesis Hnum : forall n, P (JNum n).
Hypothesis Hstr : forall s, P (JStr s).
Hypothesis Harr : forall xs, Forall P xs -> P (JArr xs).
Hypothesis Hobj : forall kvs, Forall (fun kv => P (snd kv)) kvs -> P (JObj kvs).

Fixpoint JsVal_nested_ind (v : JsVal) : P v :=
  match v with
  | JUndefined => Hundef
  | JNull => Hnull
  | JBool b => Hbool b
  | JNum n => Hnum n
  | JStr s => Hstr s
  | JArr xs =>
      Harr xs ((fix go (l : list JsVal) : Forall P l :=
                  match l with
                  | [] => @List.Forall_nil _ P
                  | x :: r => @List.Forall_cons _ P x r (JsVal_nested_ind x) (go r)
                  end) xs)
  | JObj kvs =>
      Hobj kvs ((fix go (l : list (string * JsVal)) : Forall (fun kv => P (snd kv)) l :=
                   match l with
                   | [] => @List.Forall_nil _ (fun kv => P (snd kv))
                   | kv :: r =>
                       @List.Forall_cons _ (fun kv => P (snd kv)) kv r (JsVal_nested_ind (snd kv)) (go r)
                   end) kvs)
  end.
End JsVal_nested_ind.

(** [if (v)]: JavaScript truthiness. *)
Definition truthy (v : JsVal) : bool :=
  match v with
  | JUndefined | JNull => false
  | JBool b => b
  | JNum n => negb (n =? 0)%Z
  | JStr s => negb (String.eqb s "")
  | JArr _ | JObj _ => true
  end.

(** Modelled from the spec: [Types.isString] of [vs/base/common/types], which is
    not among the sources ("requires description to be a string"); it is also
    the test [typeof v === 'string'] of the source. *)
Definition isString (v : JsVal) : bool :=
  match v with JStr _ => true | _ => false end.

(** Modelled from the spec: [Types.isStringArray] of [vs/base/common/types], which
    is not among the sources ("options (sequence of string)"). *)
Definition isStringArray (v : JsVal) : bool :=
  match v with JArr xs => forallb isString xs | _ => false end.

(** Modelled from the spec: [Types.isUndefinedOrNull] of [vs/base/common/types],
    which is not among the sources ("the absent/undefined sentinel"). *)
Definition isUndefinedOrNull (v : JsVal) : bool :=
  match v with JUndefined | JNull => true | _ => false end.

(** ** The pattern [/\${((input|command):(.*?))}/g] *)

Module Pattern.

(** The line terminators are LF, CR, U+2028 and U+2029; in UTF-8 the last two
    are the bytes E2 80 A8 and E2 80 A9, which stand for nothing else.
    [lineTerminatorAt s]: [s] starts with a line terminator. *)
Definition lineTerminatorAt (s : string) : bool :=
  match s with
  | EmptyString => false
  | String c r =>
      Ascii.eqb c "010"%char || Ascii.eqb c "013"%char
      || (Ascii.eqb c "226"%char
          && match r with
             | String c1 (String c2 _) =>
                 Ascii.eqb c1 "128"%char
                 && (Ascii.eqb c2 "168"%char || Ascii.eqb c2 "169"%char)
             | _ => false
             end)
  end.

(** [stripPrefix p s]: the rest of [s] after the literal [p], if [s] starts with it. *)
Fixpoint stripPrefix (p s : string) : option string :=
  match p with
  | EmptyString => Some s
  | String a p' =>
      match s with
      | EmptyString => None
      | String b s' => if Ascii.eqb a b then stripPrefix p' s' else None
      end
  end.

(** The lazy group [(.*?)] followed by the closing brace: the shortest run of
    characters that is followed by a brace; [.] does not match a line
    terminator. *)
Fixpoint lazyCapture (s : string) : option string :=
  match s with
  | EmptyString => None
  | String c r =>
      if Ascii.eqb c "}"%char then Some EmptyString
      else if lineTerminatorAt s then None
      else match lazyCapture r with
           | Some cap => Some (String c cap)
           | None => None
           end
  end.

(** [matchHere s]: the first group [matches[1]] (the text [kind:name]) when the
    pattern matches at the very start of [s]. *)
Definition matchHere (s : string) : option string :=
  match stripPrefix "${" s with
  | None => None
  | Some r =>
      match stripPrefix "input:" r with
      | Some r' => option_map (String.append "input:") (lazyCapture r')
      | None =>
          match stripPrefix "command:" r with
          | Some r' => option_map (String.append "command:") (lazyCapture r')
          | None => None
          end
      end
  end.

(** The loop [while ((matches = PATTERN.exec(object)) !== null)]: every match
    from left to right, each search resuming at the end of the previous match
    ([lastIndex]).  [skip] counts the characters of the current match that are
    still to be stepped over; a match is [${], the group and the brace. *)
Fixpoint execFrom (skip : nat) (s : string) : list string :=
  match s with
  | EmptyString => []
  | String _ r =>
      match skip with
      | S k => execFrom k r
      | O =>
          match matchHere s with
          | Some m => m :: execFrom (String.length m + 2) r
          | None => execFrom 0 r
          end
      end
  end.

Definition execAll (s : string) : list string := execFrom 0 s.

End Pattern.

(** ** VariableScanner: [findVariables] *)

(** [variables.indexOf(command)]: the first index, or -1. *)
Fixpoint indexOf (variables : list string) (command : string) : Z :=
  match variables with
  | [] => (-1)%Z
  | v :: rest =>
      if String.eqb v command then 0%Z
      else let i := indexOf rest command in
           if (i <? 0)%Z then (-1)%Z else (i + 1)%Z
  end.

(** [if (variables.indexOf(command) < 0) { variables.push(command); }] *)
Definition pushNew (variables : list string) (command : string) : list string :=
  if (indexOf variables command <? 0)%Z then variables ++ [command] else variables.

(** The array [variables] is updated in place by the source; here it is threaded
    through the traversal. *)
Fixpoint findVariables (object : JsVal) (variables : list string) : list string :=
  match object with
  | JStr s => fold_left pushNew (Pattern.execAll s) variables
  | JArr xs => fold_left (fun acc value => findVariables value acc) xs variables
  | JObj kvs => fold_left (fun acc kv => findVariables (snd kv) acc) kvs variables
  | JUndefined | JNull | JBool _ | JNum _ => variables
  end.

(** ** [String.prototype.split] with a limit *)

(** [s.split(separator)]: the pieces between the separators, all of them. *)
Fixpoint split (separator : ascii) (s : string) : list string :=
  match s with
  | EmptyString => [EmptyString]
  | String c r =>
      if Ascii.eqb c separator then EmptyString :: split separator r
      else match split separator r with
           | piece :: pieces => String c piece :: pieces
           | [] => [String c EmptyString]
           end
  end.

(** [s.split(separator, limit)]: the first [limit] pieces; the rest of the
    string is dropped, not kept in the last piece. *)
Definition splitLimit (separator : ascii) (limit : nat) (s : string) : list string :=
  firstn limit (split separator s).

(** ** Declared inputs, quick-input records and the injected services *)

(** [ConfiguredInput]: one declared input.  The attributes come from user
    configuration and are checked dynamically by the source, so they are kept as
    raw values ([JUndefined] when the attribute is missing). *)
Module ConfiguredInput.
Record t : Type := Build {
  id : string;
  type : string;
  description : JsVal;
  default : JsVal;
  options : JsVal;
  command : JsVal;
  args : JsVal
}.
End ConfiguredInput.

(** [IInputOptions]: [value] is [None] when the property is not set. *)
Record IInputOptions : Type := {
  prompt : string;
  value : option JsVal
}.

(** [IQuickPickItem]: [item_description] is [None] when the property is not set. *)
Record IQuickPickItem : Type := {
  label : string;
  item_description : option string
}.

Record IPickOptions : Type := {
  placeHolder : string
}.

Record IWorkspaceFolder : Type := {
  uri : string
}.

Inductive WorkbenchState : Type := EMPTY | FOLDER | WORKSPACE.

Definition WorkbenchState_eqb (a b : WorkbenchState) : bool :=
  match a, b with
  | EMPTY, EMPTY | FOLDER, FOLDER | WORKSPACE, WORKSPACE => true
  | _, _ => false
  end.

(** What [configurationService.getValue(section, ...)] returns when it is truthy:
    an object whose [inputs] property may be missing. *)
Record SectionValue : Type := {
  inputs : option (list ConfiguredInput.t)
}.

(** What is passed to [executeCommand] as the identifier of the command: a
    string or [undefined], or a member that the alias object inherits from
    [Object.prototype] (a function, or the prototype itself for [__proto__]).
    An identifier of the first kind is written as the option itself:
    [Some "id"] or [None]. *)
Inductive CommandId : Type :=
| IdValue (id : option string)
| IdInherited (property : string).
#[warning="-uniform-inheritance"] Coercion IdValue : option >-> CommandId.

(** A call made to an injected service. *)
Inductive Event : Type :=
| ExecuteCommand (commandId : CommandId) (args : JsVal)
| Input (options : IInputOptions)
| Pick (picks : list IQuickPickItem) (options : IPickOptions).

(** The calls made so far, oldest first. *)
Definition History : Type := list Event.

(** How the promise returned by a service settles. *)
Inductive Reply (A : Type) : Type :=
| Resolves (a : A)
| Rejects (reason : string).
Arguments Resolves {A} a.
Arguments Rejects {A} reason.

(** The services injected in the constructor.  The answer of an interactive
    service may depend on everything that was asked before. *)
Record Services : Type := {
  executeCommand : History -> CommandId -> JsVal -> Reply JsVal;
  input : History -> IInputOptions -> Reply (option string);
  pick : History -> list IQuickPickItem -> IPickOptions -> Reply (option IQuickPickItem);
  getValue : option string -> string -> option SectionValue;
  getWorkbenchState : WorkbenchState
}.

(** ** Faults and the sequential promise monad *)

Inductive Fault : Type :=
| UndefinedVariable (variable : option string)
    (* inputVariable.undefinedVariable *)
| MissingAttribute (variable : option string) (type attrName : string)
    (* inputVariable.missingAttribute *)
| UnknownInputType (variable : option string)
    (* inputVariable.unknownType *)
| InvalidResultType_command (commandId : CommandId)
    (* commandVariable.noStringType *)
| InvalidResultType_input (variable : option string) (command : string)
    (* inputVariable.command.noStringType *)
| TypeError
    (* reading a property of undefined *)
| Rejection (reason : string).
    (* a service promise was rejected *)

Inductive Outcome (A : Type) : Type :=
| Fulfilled (a : A)
| Thrown (f : Fault).
Arguments Fulfilled {A} a.
Arguments Thrown {A} f.

(** An awaited computation: from the calls made before it to its outcome and
    the calls made up to its end. *)
Definition Async (A : Type) : Type := History -> Outcome A * History.

Definition ret {A} (a : A) : Async A := fun h => (Fulfilled a, h).

Definition throw {A} (f : Fault) : Async A := fun h => (Thrown f, h).

Definition bind {A B} (m : Async A) (k : A -> Async B) : Async B :=
  fun h =>
    match m h with
    | (Fulfilled a, h') => k a h'
    | (Thrown f, h') => (Thrown f, h')
    end.

(** Calling a service and awaiting its promise. *)
Definition call {A} (e : Event) (reply : History -> Reply A) : Async A :=
  fun h =>
    match reply h with
    | Resolves a => (Fulfilled a, h ++ [e])
    | Rejects reason => (Thrown (Rejection reason), h ++ [e])
    end.

Declare Scope async_scope.
Delimit Scope async_scope with async.
Notation "x <- m ;; k" := (bind m (fun x => k))
  (at level 100, m at next level, right associativity) : async_scope.

(** ** InputResolver: [showUserInput] *)

(** [array.pop()]: the last element, [undefined] on the empty array. *)
Fixpoint pop {A} (l : list A) : option A :=
  match l with
  | [] => None
  | [x] => Some x
  | _ :: r => pop r
  end.

(** [item.id === variable], where [variable] is a string or [undefined]. *)
Definition idMatches (variable : option string) (item : ConfiguredInput.t) : bool :=
  match variable with
  | Some v => String.eqb (ConfiguredInput.id item) v
  | None => false
  end.

(** [pickOption === info.default] for a string [pickOption]. *)
Definition strictEqString (pickOption : string) (v : JsVal) : bool :=
  match v with
  | JStr s => String.eqb pickOption s
  | _ => false
  end.

(** [nls.localize('inputVariable.defaultInputValue', "Default")]: the message in
    the default language. *)
Definition defaultInputValue : string := "Default".

(** The strings of a value that passed [Types.isStringArray]. *)
Definition stringsOf (v : JsVal) : list string :=
  match v with
  | JArr xs => flat_map (fun x => match x with JStr s => [s] | _ => [] end) xs
  | _ => []
  end.

(** The body of [info.options.forEach(pickOption => ...)]. *)
Definition addPick (default : JsVal) (picks : list IQuickPickItem) (pickOption : string)
  : list IQuickPickItem :=
  if strictEqString pickOption default
  then {| label := pickOption; item_description := Some defaultInputValue |} :: picks
  else picks ++ [{| label := pickOption; item_description := None |}].

Definition buildPicks (default : JsVal) (options : list string) : list IQuickPickItem :=
  fold_left (addPick default) options [].

Section Resolution.
Variable svc : Services.
Local Open Scope async_scope.

Definition showUserInput (variable : option string)
    (inputInfos : option (list ConfiguredInput.t)) : Async JsVal :=
  match inputInfos with
  | None => throw TypeError
  | Some infos =>
      match pop (List.filter (idMatches variable) infos) with
      | Some info =>
          let missingAttribute {A} (attrName : string) : Async A :=
            throw (MissingAttribute variable (ConfiguredInput.type info) attrName) in
          if String.eqb (ConfiguredInput.type info) "promptString" then
            match ConfiguredInput.description info with
            | JStr description =>
                let inputOptions :=
                  {| prompt := description;
                     value := if truthy (ConfiguredInput.default info)
                              then Some (ConfiguredInput.default info) else None |} in
                resolvedInput <- call (Input inputOptions)
                                      (fun h => input svc h inputOptions) ;;
                ret (match resolvedInput with
                     | Some s => if truthy (JStr s) then JStr s else JUndefined
                     | None => JUndefined
                     end)
            | _ => missingAttribute "description"
            end
          else if String.eqb (ConfiguredInput.type info) "pickString" then
            match ConfiguredInput.description info with
            | JStr description =>
                if isStringArray (ConfiguredInput.options info) then
                  let picks := buildPicks (ConfiguredInput.default info)
                                          (stringsOf (ConfiguredInput.options info)) in
                  let pickOptions := {| placeHolder := description |} in
                  resolvedInput <- call (Pick picks pickOptions)
                                        (fun h => pick svc h picks pickOptions) ;;
                  ret (match resolvedInput with
                       | Some item => JStr (label item)
                       | None => JUndefined
                       end)
                else missingAttribute "options"
            | _ => missingAttribute "description"
            end
          else if String.eqb (ConfiguredInput.type info) "command" then
            match ConfiguredInput.command info with
            | JStr command =>
                result <- call (ExecuteCommand (Some command) (ConfiguredInput.args info))
                               (fun h => executeCommand svc h (Some command)
                                                        (ConfiguredInput.args info)) ;;
                if isString result || isUndefinedOrNull result then ret result
                else throw (InvalidResultType_input variable command)
            | _ => missingAttribute "command"
            end
          else throw (UnknownInputType variable)
      | None => throw (UndefinedVariable variable)
      end
  end.

(** ** CommandResolver and orchestrator: [resolveWithInputAndCommands] *)

(** [variableToCommandMap[name]]: a property key that is [undefined] is read
    as the string "undefined". *)
Definition propertyKey (name : option string) : string :=
  match name with Some n => n | None => "undefined" end.

(** The alias map is a plain object: the finite map holds its own properties,
    and a key that is not among them is looked up in [Object.prototype], whose
    members are these.  Each of them is truthy. *)
Definition objectPrototypeMembers : list string :=
  [ "constructor"; "hasOwnProperty"; "isPrototypeOf"; "propertyIsEnumerable";
    "toLocaleString"; "toString"; "valueOf"; "__proto__";
    "__defineGetter__"; "__defineSetter__"; "__lookupGetter__"; "__lookupSetter__" ].

Definition inheritedMember (key : string) : bool :=
  existsb (String.eqb key) objectPrototypeMembers.

(** [a || b] on values that are strings or [undefined]. *)
Definition orElse (a b : option string) : option string :=
  match a with
  | Some s => if truthy (JStr s) then a else b
  | None => b
  end.

(** [(variableToCommandMap ? variableToCommandMap[name] : undefined) || name]:
    an own entry is a string, and the name stands in for it when it is empty;
    an inherited member is truthy and is the identifier itself. *)
Definition commandIdOf (variableToCommandMap : option (gmap string string))
    (name : option string) : CommandId :=
  match variableToCommandMap with
  | Some aliases =>
      match aliases !! propertyKey name with
      | Some alias => IdValue (orElse (Some alias) name)
      | None =>
          if inheritedMember (propertyKey name)
          then IdInherited (propertyKey name)
          else IdValue name
      end
  | None => IdValue name
  end.

(** The body of the loop up to the test on [result]: [variable.split(':', 2)]
    and the [switch]. *)
Definition resolveVariable (configuration : JsVal)
    (variableToCommandMap : option (gmap string string))
    (inputs : option (list ConfiguredInput.t)) (variable : string) : Async JsVal :=
  let parts := splitLimit ":" 2 variable in
  let type := parts !! 0%nat in
  let name := parts !! 1%nat in
  match type with
  | Some type =>
      if String.eqb type "input" then showUserInput name inputs
      else if String.eqb type "command" then
        let commandId := commandIdOf variableToCommandMap name in
        result <- call (ExecuteCommand commandId configuration)
                       (fun h => executeCommand svc h commandId configuration) ;;
        if negb (isString result) && negb (isUndefinedOrNull result)
        then throw (InvalidResultType_command commandId)
        else ret result
      else ret JUndefined
  | None => ret JUndefined
  end.

(** [for (const variable of variables) { ... }] followed by
    [return variableValues]. *)
Fixpoint resolveLoop (configuration : JsVal)
    (variableToCommandMap : option (gmap string string))
    (inputs : option (list ConfiguredInput.t))
    (variables : list string) (variableValues : gmap string string)
  : Async (option (gmap string string)) :=
  match variables with
  | [] => ret (Some variableValues)
  | variable :: rest =>
      result <- resolveVariable configuration variableToCommandMap inputs variable ;;
      match result with
      | JStr s =>
          resolveLoop configuration variableToCommandMap inputs rest
                      (<[variable := s]> variableValues)
      | _ => ret None
      end
  end.

(** The lookup of the declared inputs (the block under [// get all "inputs"]). *)
Definition getInputs (folder : option IWorkspaceFolder) (section : option string)
  : option (list ConfiguredInput.t) :=
  match folder with
  | Some f =>
      if negb (WorkbenchState_eqb (getWorkbenchState svc) EMPTY) then
        match getValue svc section (uri f) with
        | Some result => inputs result
        | None => None
        end
      else None
  | None => None
  end.

Definition resolveWithInputAndCommands (folder : option IWorkspaceFolder)
    (configuration : JsVal) (variableToCommandMap : option (gmap string string))
    (section : option string) : Async (option (gmap string string)) :=
  if negb (truthy configuration) then ret None
  else
    let inputs := getInputs folder section in
    let variables := findVariables configuration [] in
    resolveLoop configuration variableToCommandMap inputs variables ∅.

End Resolution.

(** ** SessionMappingAggregator: [updateMapping] *)

(** [forEach(newMapping, entry => fullMapping.set(entry.key, entry.value))].
    Modelled from the spec: [forEach] of [vs/base/common/collections], which is not
    among the sources, visits every entry of the dictionary ("copies every entry
    from newMapping into cumulative"). *)
Definition updateMapping (newMapping : option (gmap string string))
    (fullMapping : gmap string string) : bool * gmap string string :=
  match newMapping with
  | None => (false, fullMapping)
  | Some entries =>
      (true, map_fold (fun key value full => <[key := value]> full) fullMapping entries)
  end.

(** ** Callers: [resolveWithInteraction] and [resolveWithInteractionReplace] *)

(** The two methods of the base class [AbstractVariableResolverService] that the
    callers use; the base class is not among the sources and is taken as a
    parameter.  Both are synchronous and may throw.  [resolveAnyMap] returns
    [newConfig] and [resolvedVariables]. *)
Record AbstractVariableResolverService : Type := {
  resolveAny :
    option IWorkspaceFolder -> JsVal -> option (gmap string string) -> Outcome JsVal;
  resolveAnyMap :
    option IWorkspaceFolder -> JsVal -> option (gmap string string)
    -> Outcome (JsVal * gmap string string)
}.

(** A synchronous call inside the promise chain. *)
Definition sync {A} (o : Outcome A) : Async A := fun h => (o, h).

(** [fromMap] of [vs/base/common/collections] turns a [Map] into a dictionary;
    both are finite maps here. *)
Definition fromMap (mapping : gmap string string) : gmap string string := mapping.

Section Callers.
Variable base : AbstractVariableResolverService.
Variable svc : Services.
Local Open Scope async_scope.

Definition resolveWithInteraction (folder : option IWorkspaceFolder) (config : JsVal)
    (section : option string) (variables : option (gmap string string))
  : Async (option (gmap string string)) :=
  resolved <- sync (resolveAnyMap base folder config None) ;;
  let config := fst resolved in
  let allVariableMapping := snd resolved in
  inputOrCommandMapping <- resolveWithInputAndCommands svc folder config variables section ;;
  let updated := updateMapping inputOrCommandMapping allVariableMapping in
  if fst updated then ret (Some (snd updated)) else ret None.

Definition resolveWithInteractionReplace (folder : option IWorkspaceFolder)
    (config : JsVal) (section : option string) (variables : option (gmap string string))
  : Async JsVal :=
  config <- sync (resolveAny base folder config None) ;;
  mapping <- resolveWithInteraction folder config section variables ;;
  match mapping with
  | None => ret JNull
  | Some mapping =>
      if (0 <? size mapping)%nat
      then sync (resolveAny base folder config (Some (fromMap mapping)))
      else ret config
  end.

End Callers.

(** ** A scripted world for the concrete runs *)

Module Scripted.

Definition declared : list ConfiguredInput.t :=
  [ ConfiguredInput.Build "name" "promptString" (JStr "d") JUndefined JUndefined
      JUndefined JUndefined;
    ConfiguredInput.Build "second" "promptString" (JStr "cancel") (JStr "foo") JUndefined
      JUndefined JUndefined;
    ConfiguredInput.Build "blank" "promptString" (JStr "empty") JUndefined JUndefined
      JUndefined JUndefined;
    ConfiguredInput.Build "colour" "pickString" (JStr "which colour") (JStr "green")
      (JArr [JStr "red"; JStr "green"; JStr "blue"]) JUndefined JUndefined ].

(** The user types "x" at the prompt "d", submits an empty box at the prompt
    "empty" and dismisses every other prompt; picks the first choice of a
    list.  The command "echo" returns "y", "count" returns a number, "silent"
    returns nothing and every other command returns its own identifier; an
    identifier that is no string is refused. *)
Definition services : Services :=
  {| executeCommand := fun _ commandId _ =>
       match commandId with
       | IdValue (Some c) =>
           if String.eqb c "echo" then Resolves (JStr "y")
           else if String.eqb c "count" then Resolves (JNum 42)
           else if String.eqb c "silent" then Resolves JUndefined
           else Resolves (JStr c)
       | IdValue None => Resolves JUndefined
       | IdInherited _ => Rejects "command not found"
       end;
     input := fun _ o =>
       if String.eqb (prompt o) "d" then Resolves (Some "x")
       else if String.eqb (prompt o) "empty" then Resolves (Some "")
       else Resolves None;
     pick := fun _ picks _ => Resolves (head picks);
     getValue := fun _ _ => Some {| inputs := Some declared |};
     getWorkbenchState := FOLDER |}.

Definition folder : IWorkspaceFolder := {| uri := "file:///w" |}.

End Scripted.

(** A scripted base class: the first pass leaves the configuration as it is and
    knows one variable; the substitution pass pairs the mapping size with the
    configuration, which is enough to see that it ran. *)
Module ScriptedBase.

Definition base : AbstractVariableResolverService :=
  {| resolveAny := fun _ config mapping =>
       match mapping with
       | Some m => Fulfilled (JArr [JNum (Z.of_nat (size m)); config])
       | None => Fulfilled config
       end;
     resolveAnyMap := fun _ config _ =>
       Fulfilled (config, {["workspaceFolder" := "/w"]}) |}.

End ScriptedBase.

(** ** Reference definitions for strings *)

(** Every character of [s] satisfies [p]. *)
Fixpoint allChars (p : ascii -> bool) (s : string) : bool :=
  match s with
  | EmptyString => true
  | String c r => p c && allChars p r
  end.

(** A name that the group [(.*?)] can hold before the closing brace: it has no
    closing brace and no line terminator (LF, CR, U+2028, U+2029). *)
Fixpoint plainName (s : string) : bool :=
  match s with
  | EmptyString => true
  | String c r =>
      negb (Ascii.eqb c "}"%char) && negb (Pattern.lineTerminatorAt s) && plainName r
  end.

Definition notChar (x : ascii) (c : ascii) : bool := negb (Ascii.eqb c x).

(** The strings of a tree that the traversal reaches: the tree itself, the
    elements of a sequence, the values of a mapping, at any depth. *)
Fixpoint stringsIn (object : JsVal) : list string :=
  match object with
  | JStr s => [s]
  | JArr xs => flat_map stringsIn xs
  | JObj kvs => flat_map (fun kv => stringsIn (snd kv)) kvs
  | JUndefined | JNull | JBool _ | JNum _ => []
  end.

(** The text [kind:name] of a reference to an input or to a command. *)
Definition isReference (r : string) : Prop :=
  exists name,
    (r = "input:" +:+ name \/ r = "command:" +:+ name) /\
    plainName name = true.

(** The faults raised while the declaration is looked up and checked. *)
Definition declarationFault (f : Fault) : bool :=
  match f with
  | UndefinedVariable _ | MissingAttribute _ _ _ | UnknownInputType _ | TypeError => true
  | InvalidResultType_command _ | InvalidResultType_input _ _ | Rejection _ => false
  end.

(** ** Reference definitions for the scanner *)

(** Every match of the pattern in the tree, duplicates included, in the order of
    the traversal: a string gives its matches from left to right, a sequence
    the matches of its elements in order, a mapping the matches of its values
    in key order. *)
Fixpoint occurrences (object : JsVal) : list string :=
  match object with
  | JStr s => Pattern.execAll s
  | JArr xs => flat_map occurrences xs
  | JObj kvs => flat_map (fun kv => occurrences (snd kv)) kvs
  | JUndefined | JNull | JBool _ | JNum _ => []
  end.

(** [acc] lists the distinct elements of [seen], ordered by first occurrence. *)
Definition FirstOccurrences (seen acc : list string) : Prop :=
  NoDup acc /\
  (forall r, In r acc <-> In r seen) /\
  (forall (i j : nat) r1 r2,
      acc !! i = Some r1 -> acc !! j = Some r2 -> (i < j)%nat ->
      (indexOf seen r1 < indexOf seen r2)%Z).

(** A computation [Extends] when it only adds calls at the end of the history. *)
Definition Extends {A} (m : Async A) : Prop :=
  forall h, exists later, snd (m h) = h ++ later.

(** ** Reference definitions for the pick list *)

(** The choice annotated as the default one, and a plain choice. *)
Definition defaultPick (option : string) : IQuickPickItem :=
  {| label := option; item_description := Some defaultInputValue |}.

Definition plainPick (option : string) : IQuickPickItem :=
  {| label := option; item_description := None |}.

Create HintDb extends.

(** * Properties *)

(** ** Scanner *)

Lemma indexOf_absent variables command :
  ~ In command variables -> indexOf variables command = (-1)%Z.
Proof.
  induction variables as [|v rest IH]; simpl; intros Hn; [reflexivity|].
  destruct (String.eqb_spec v command) as [->|Hne].
  - exfalso. apply Hn. now left.
  - rewrite IH by (intros Hin; apply Hn; now right). reflexivity.
Qed.

Lemma indexOf_present variables command :
  In command variables ->
  (0 <= indexOf variables command < Z.of_nat (length variables))%Z.
Proof.
  induction variables as [|v rest IH]; simpl; intros Hin; [contradiction|].
  destruct (String.eqb_spec v command) as [->|Hne]; [lia|].
  destruct Hin as [Heq|Hin]; [congruence|].
  specialize (IH Hin).
  destruct (Z.ltb_spec (indexOf rest command) 0); lia.
Qed.

Lemma indexOf_neg_iff variables command :
  (indexOf variables command <? 0)%Z = true <-> ~ In command variables.
Proof.
  split.
  - intros Hlt Hin. apply indexOf_present in Hin. apply Z.ltb_lt in Hlt. lia.
  - intros Hn. rewrite (indexOf_absent _ _ Hn). reflexivity.
Qed.

Lemma indexOf_app_present variables more command :
  In command variables ->
  indexOf (variables ++ more) command = indexOf variables command.
Proof.
  induction variables as [|v rest IH]; simpl; intros Hin; [contradiction|].
  destruct (String.eqb_spec v command) as [->|Hne]; [reflexivity|].
  destruct Hin as [Heq|Hin]; [congruence|].
  rewrite (IH Hin). reflexivity.
Qed.

Lemma indexOf_app_absent variables more command :
  ~ In command variables -> In command more ->
  indexOf (variables ++ more) command
  = (Z.of_nat (length variables) + indexOf more command)%Z.
Proof.
  induction variables as [|v rest IH]; intros Hn Hin.
  - simpl. lia.
  - cbn [app indexOf length].
    destruct (String.eqb_spec v command) as [->|Hne].
    + exfalso. apply Hn. now left.
    + assert (Hn' : ~ In command rest) by (intros H; apply Hn; now right).
      rewrite (IH Hn' Hin).
      pose proof (indexOf_present _ _ Hin).
      destruct (Z.ltb_spec (Z.of_nat (length rest) + indexOf more command) 0); lia.
Qed.

Lemma pushNew_absent variables command :
  ~ In command variables -> pushNew variables command = variables ++ [command].
Proof.
  intros Hn. unfold pushNew.
  now rewrite (proj2 (indexOf_neg_iff _ _) Hn).
Qed.

Lemma pushNew_present variables command :
  In command variables -> pushNew variables command = variables.
Proof.
  intros Hin. unfold pushNew.
  destruct (indexOf variables command <? 0)%Z eqn:E; [|reflexivity].
  apply indexOf_neg_iff in E. contradiction.
Qed.

Lemma FirstOccurrences_step seen acc command :
  FirstOccurrences seen acc ->
  FirstOccurrences (seen ++ [command]) (pushNew acc command).
Proof.
  intros (Hnd & Hsame & Hord).
  destruct (in_dec string_dec command acc) as [Hin|Hn].
  - rewrite (pushNew_present _ _ Hin). repeat split.
    + exact Hnd.
    + intros Hr. apply in_or_app. left. now apply Hsame.
    + intros Hr. apply in_app_or in Hr as [Hr|[<-|[]]]; [now apply Hsame|exact Hin].
    + intros i j r1 r2 Hi Hj Hlt.
      assert (In r1 seen) by (apply Hsame, list_elem_of_In, list_elem_of_lookup; eauto).
      assert (In r2 seen) by (apply Hsame, list_elem_of_In, list_elem_of_lookup; eauto).
      rewrite !indexOf_app_present by assumption. eauto.
  - rewrite (pushNew_absent _ _ Hn).
    assert (Hns : ~ In command seen) by (intros H; apply Hn; now apply Hsame).
    repeat split.
    + apply NoDup_app. repeat split; [exact Hnd| |apply NoDup_singleton].
      intros x Hx Hx'. apply list_elem_of_In in Hx.
      apply list_elem_of_singleton in Hx'. subst. contradiction.
    + intros Hr. apply in_app_or in Hr as [Hr|Hr]; apply in_or_app;
        [left; now apply Hsame|now right].
    + intros Hr. apply in_app_or in Hr as [Hr|Hr]; apply in_or_app;
        [left; now apply Hsame|now right].
    + intros i j r1 r2 Hi Hj Hlt.
      assert (Hli : (i < length acc)%nat).
      { apply lookup_lt_Some in Hj. rewrite length_app in Hj. simpl in Hj. lia. }
      rewrite lookup_app_l in Hi by exact Hli.
      assert (H1 : In r1 seen)
        by (apply Hsame, list_elem_of_In, list_elem_of_lookup; eauto).
      rewrite (indexOf_app_present _ _ _ H1).
      destruct (Nat.lt_ge_cases j (length acc)) as [Hlj|Hge].
      * rewrite lookup_app_l in Hj by exact Hlj.
        assert (H2 : In r2 seen)
          by (apply Hsame, list_elem_of_In, list_elem_of_lookup; eauto).
        rewrite (indexOf_app_present _ _ _ H2). eauto.
      * rewrite lookup_app_r in Hj by exact Hge.
        destruct (j - length acc)%nat as [|k] eqn:Ek; simpl in Hj; [|destruct k; discriminate].
        injection Hj as <-.
        rewrite indexOf_app_absent by (simpl; auto).
        pose proof (indexOf_present _ _ H1).
        simpl. rewrite String.eqb_refl. lia.
Qed.

Lemma FirstOccurrences_fold more : forall seen acc,
  FirstOccurrences seen acc ->
  FirstOccurrences (seen ++ more) (fold_left pushNew more acc).
Proof.
  induction more as [|command more IH]; intros seen acc H; simpl.
  - now rewrite app_nil_r.
  - replace (seen ++ command :: more) with ((seen ++ [command]) ++ more)
      by (now rewrite <- app_assoc).
    apply IH, FirstOccurrences_step, H.
Qed.

Lemma findVariables_fold object : forall variables,
  findVariables object variables = fold_left pushNew (occurrences object) variables.
Proof.
  induction object as [| | | | |xs IH|kvs IH] using JsVal_nested_ind;
    intros variables; simpl; try reflexivity.
  - revert variables. induction IH as [|x xs Hx _ IHxs]; intros variables; simpl.
    + reflexivity.
    + rewrite fold_left_app, <- Hx. apply IHxs.
  - revert variables. induction IH as [|kv kvs Hkv _ IHkvs]; intros variables; simpl.
    + reflexivity.
    + rewrite fold_left_app, <- Hkv. apply IHkvs.
Qed.

(** C2: the scan of a tree has no duplicate, holds exactly the references that
    occur in the tree, and orders them by the position of their first
    occurrence in the traversal (strings left to right, sequence elements in
    order, mapping values in key order). *)
Theorem scan_dedup_first_occurrence (T : JsVal) :
  NoDup (findVariables T []) /\
  (forall r, In r (findVariables T []) <-> In r (occurrences T)) /\
  (forall (i j : nat) r1 r2,
      findVariables T [] !! i = Some r1 ->
      findVariables T [] !! j = Some r2 ->
      (i < j)%nat ->
      (indexOf (occurrences T) r1 < indexOf (occurrences T) r2)%Z).
Proof.
  rewrite findVariables_fold.
  apply (FirstOccurrences_fold (occurrences T) [] []).
  split; [apply NoDup_nil_2|split].
  - intros r. reflexivity.
  - intros i j r1 r2 Hi. rewrite lookup_nil in Hi. discriminate.
Qed.

(** A reference embedded twice is listed once, at the earlier position. *)
Example scan_twice_embedded :
  findVariables
    (JObj [("a", JStr "${command:x} and ${input:y}");
           ("b", JArr [JStr "${input:y}${input:z}"; JStr "${command:x}"])]) []
  = ["command:x"; "input:y"; "input:z"].
Proof. reflexivity. Qed.


(** ** The promise monad and the history of calls *)

Lemma bind_fulfilled {A B} (m : Async A) (k : A -> Async B) h a h' :
  m h = (Fulfilled a, h') -> bind m k h = k a h'.
Proof. intros H. unfold bind. now rewrite H. Qed.

Lemma bind_thrown {A B} (m : Async A) (k : A -> Async B) h f h' :
  m h = (Thrown f, h') -> bind m k h = (Thrown f, h').
Proof. intros H. unfold bind. now rewrite H. Qed.

Lemma Extends_ret {A} (a : A) : Extends (ret a).
Proof. intros h. exists []. simpl. now rewrite app_nil_r. Qed.

Lemma Extends_throw {A} f : Extends (@throw A f).
Proof. intros h. exists []. simpl. now rewrite app_nil_r. Qed.

Lemma Extends_call {A} e (reply : History -> Reply A) : Extends (call e reply).
Proof. intros h. exists [e]. unfold call. now destruct (reply h). Qed.

Lemma Extends_bind {A B} (m : Async A) (k : A -> Async B) :
  Extends m -> (forall a, Extends (k a)) -> Extends (bind m k).
Proof.
  intros Hm Hk h. unfold bind.
  destruct (Hm h) as [l1 H1]. destruct (m h) as [[a|f] h']; simpl in H1; subst h'.
  - destruct (Hk a (h ++ l1)) as [l2 H2]. exists (l1 ++ l2).
    now rewrite H2, app_assoc.
  - now exists l1.
Qed.

#[local] Hint Resolve Extends_ret Extends_throw Extends_call : extends.

Lemma Extends_showUserInput svc variable inputInfos :
  Extends (showUserInput svc variable inputInfos).
Proof.
  unfold showUserInput.
  destruct inputInfos as [infos|]; auto with extends.
  destruct (pop _) as [info|]; auto with extends.
  repeat match goal with
         | |- Extends (if ?b then _ else _) => destruct b
         | |- Extends (match ?v with _ => _ end) => destruct v
         | |- Extends (bind _ _) => apply Extends_bind; [|intros ?]
         end; auto with extends.
Qed.

Lemma Extends_resolveVariable svc configuration variableToCommandMap inputs variable :
  Extends (resolveVariable svc configuration variableToCommandMap inputs variable).
Proof.
  unfold resolveVariable.
  destruct (_ !! 0%nat) as [type|]; auto with extends.
  destruct (String.eqb type "input"); [apply Extends_showUserInput|].
  destruct (String.eqb type "command"); auto with extends.
  apply Extends_bind; auto with extends.
  intros result. destruct (_ && _); auto with extends.
Qed.

Lemma Extends_resolveLoop svc configuration variableToCommandMap inputs variables :
  forall variableValues,
  Extends (resolveLoop svc configuration variableToCommandMap inputs variables
                       variableValues).
Proof.
  induction variables as [|variable rest IH]; intros variableValues; simpl.
  - auto with extends.
  - apply Extends_bind; [apply Extends_resolveVariable|].
    intros result. destruct result; auto with extends.
Qed.

(** ** Orchestrator *)

Lemma resolveLoop_app svc configuration variableToCommandMap inputs pre rest :
  forall variableValues h,
  resolveLoop svc configuration variableToCommandMap inputs (pre ++ rest) variableValues h
  = match resolveLoop svc configuration variableToCommandMap inputs pre variableValues h with
    | (Fulfilled (Some values), h') =>
        resolveLoop svc configuration variableToCommandMap inputs rest values h'
    | other => other
    end.
Proof.
  induction pre as [|variable pre IH]; intros variableValues h; simpl.
  - reflexivity.
  - unfold bind.
    destruct (resolveVariable _ _ _ _ _ h) as [[result|f] h']; [|reflexivity].
    destruct result; try reflexivity. apply IH.
Qed.

(** Once the variables before [variable] are resolved, the call continues with
    the loop at [variable]. *)
Lemma resolveWithInputAndCommands_reaches svc folder configuration variableToCommandMap
    section pre variable post values h h1 :
  truthy configuration = true ->
  findVariables configuration [] = pre ++ variable :: post ->
  resolveLoop svc configuration variableToCommandMap (getInputs svc folder section)
              pre ∅ h = (Fulfilled (Some values), h1) ->
  resolveWithInputAndCommands svc folder configuration variableToCommandMap section h
  = resolveLoop svc configuration variableToCommandMap (getInputs svc folder section)
                (variable :: post) values h1.
Proof.
  intros Ht Hscan Hpre. unfold resolveWithInputAndCommands.
  rewrite Ht. cbn [negb]. rewrite Hscan, resolveLoop_app, Hpre. reflexivity.
Qed.

(** The loop stops at the first result that is not a string. *)
Lemma resolveLoop_stops svc configuration variableToCommandMap inputs variable post
    values result h1 h2 :
  resolveVariable svc configuration variableToCommandMap inputs variable h1
  = (Fulfilled result, h2) ->
  isString result = false ->
  resolveLoop svc configuration variableToCommandMap inputs (variable :: post) values h1
  = (Fulfilled None, h2).
Proof.
  intros Hvar Hns. cbn [resolveLoop]. rewrite (bind_fulfilled _ _ _ _ _ Hvar).
  destruct result; try reflexivity. discriminate.
Qed.

(** C1: when the resolution of a scanned variable yields a value that is not a
    string, the call returns [undefined] at once: no mapping is returned, and
    the history of service calls ends with those of the failing variable, so
    that nothing is invoked for the variables after it. *)
Theorem abort_on_first_non_string svc folder configuration variableToCommandMap section
    pre variable post values result h h1 h2 :
  truthy configuration = true ->
  findVariables configuration [] = pre ++ variable :: post ->
  resolveLoop svc configuration variableToCommandMap (getInputs svc folder section)
              pre ∅ h = (Fulfilled (Some values), h1) ->
  resolveVariable svc configuration variableToCommandMap (getInputs svc folder section)
                  variable h1 = (Fulfilled result, h2) ->
  isString result = false ->
  resolveWithInputAndCommands svc folder configuration variableToCommandMap section h
  = (Fulfilled None, h2).
Proof.
  intros Ht Hscan Hpre Hvar Hns.
  rewrite (resolveWithInputAndCommands_reaches _ _ _ _ _ _ _ _ _ _ _ Ht Hscan Hpre).
  now apply resolveLoop_stops with (result := result).
Qed.

(** Variable 2 of 3 is cancelled: the call returns [undefined] and the command
    of variable 3 is never executed. *)
Lemma abort_on_first_non_string_witness :
  resolveWithInputAndCommands Scripted.services (Some Scripted.folder)
    (JArr [JStr "${input:name}"; JStr "${input:second}"; JStr "${command:echo}"])
    None (Some "launch") []
  = (Fulfilled None,
     [Input {| prompt := "d"; value := None |};
      Input {| prompt := "cancel"; value := Some (JStr "foo") |}]).
Proof.
  apply (abort_on_first_non_string Scripted.services (Some Scripted.folder) _ None
           (Some "launch") ["input:name"] "input:second" ["command:echo"]
           {["input:name" := "x"]} JUndefined []
           [Input {| prompt := "d"; value := None |}]).
  - reflexivity.
  - reflexivity.
  - vm_compute. reflexivity.
  - reflexivity.
  - reflexivity.
Defined.

(** ** CommandResolver *)

(** C7: the value returned by the command of a command variable must be a
    string.  A returned value that is neither a string nor [undefined]/[null]
    makes the call fail with the fault of [commandVariable.noStringType]; a
    returned [undefined]/[null] is not a fault: the call returns [undefined]. *)
Theorem command_result_must_be_string svc folder configuration variableToCommandMap
    section pre variable post values v h h1 :
  truthy configuration = true ->
  findVariables configuration [] = pre ++ variable :: post ->
  resolveLoop svc configuration variableToCommandMap (getInputs svc folder section)
              pre ∅ h = (Fulfilled (Some values), h1) ->
  splitLimit ":" 2 variable !! 0%nat = Some "command" ->
  let commandId := commandIdOf variableToCommandMap (splitLimit ":" 2 variable !! 1%nat) in
  executeCommand svc h1 commandId configuration = Resolves v ->
  isString v = false ->
  resolveWithInputAndCommands svc folder configuration variableToCommandMap section h
  = (if isUndefinedOrNull v then Fulfilled None
     else Thrown (InvalidResultType_command commandId),
     h1 ++ [ExecuteCommand commandId configuration]).
Proof.
  intros Ht Hscan Hpre Htype commandId Hreply Hns.
  rewrite (resolveWithInputAndCommands_reaches _ _ _ _ _ _ _ _ _ _ _ Ht Hscan Hpre).
  cbn [resolveLoop]. unfold resolveVariable. rewrite Htype. cbn [String.eqb Ascii.eqb Bool.eqb].
  fold commandId. unfold bind at 1. unfold bind, call. rewrite Hreply, Hns. cbn [negb andb].
  destruct v; try discriminate; reflexivity.
Qed.

(** The command "count" returns a number: the call fails. *)
Lemma command_result_must_be_string_witness :
  resolveWithInputAndCommands Scripted.services (Some Scripted.folder)
    (JStr "${command:echo} ${command:count}") None (Some "launch") []
  = (Thrown (InvalidResultType_command (Some "count")),
     [ExecuteCommand (Some "echo") (JStr "${command:echo} ${command:count}");
      ExecuteCommand (Some "count") (JStr "${command:echo} ${command:count}")]).
Proof.
  apply (command_result_must_be_string Scripted.services (Some Scripted.folder) _ None
           (Some "launch") ["command:echo"] "command:count" [] {["command:echo" := "y"]}
           (JNum 42) []
           [ExecuteCommand (Some "echo") (JStr "${command:echo} ${command:count}")]).
  - reflexivity.
  - reflexivity.
  - vm_compute. reflexivity.
  - reflexivity.
  - reflexivity.
  - reflexivity.
Defined.

(** The command "silent" returns nothing: no fault, the call returns [undefined]. *)
Example command_returning_undefined_aborts_quietly :
  resolveWithInputAndCommands Scripted.services (Some Scripted.folder)
    (JStr "${command:silent} ${command:echo}") None (Some "launch") []
  = (Fulfilled None,
     [ExecuteCommand (Some "silent") (JStr "${command:silent} ${command:echo}")]).
Proof. reflexivity. Qed.

Lemma commandIdOf_alias_or_name variableToCommandMap name :
  inheritedMember name = false ->
  commandIdOf variableToCommandMap (Some name)
  = Some match variableToCommandMap with
         | Some aliases =>
             match aliases !! name with
             | Some alias => if String.eqb alias "" then name else alias
             | None => name
             end
         | None => name
         end.
Proof.
  intros Hname. unfold commandIdOf, orElse, propertyKey.
  destruct variableToCommandMap as [aliases|]; [|reflexivity].
  destruct (aliases !! name) as [alias|]; [|now rewrite Hname].
  cbn [truthy]. now destruct (String.eqb alias "").
Qed.

(** The first call made by the loop at a command variable. *)
Lemma resolveLoop_command_call svc configuration variableToCommandMap inputs variable post
    values name h1 :
  splitLimit ":" 2 variable = ["command"; name] ->
  exists later,
    snd (resolveLoop svc configuration variableToCommandMap inputs (variable :: post)
                     values h1)
    = h1 ++ ExecuteCommand (commandIdOf variableToCommandMap (Some name)) configuration
         :: later.
Proof.
  intros Hsplit.
  cbn [resolveLoop]. unfold resolveVariable. rewrite Hsplit.
  cbn [lookup list_lookup String.eqb Ascii.eqb Bool.eqb].
  set (commandId := commandIdOf variableToCommandMap (Some name)).
  unfold bind at 1. unfold bind at 1. unfold call.
  set (h2 := h1 ++ [ExecuteCommand commandId configuration]).
  assert (Hh2 : forall later, h2 ++ later
                 = h1 ++ ExecuteCommand commandId configuration :: later).
  { intros later. unfold h2. now rewrite <- app_assoc. }
  destruct (executeCommand svc h1 commandId configuration) as [result|reason].
  - destruct (negb (isString result) && negb (isUndefinedOrNull result)).
    + exists []. reflexivity.
    + cbn [ret]. destruct result; try (exists []; reflexivity).
      destruct (Extends_resolveLoop svc configuration variableToCommandMap
                  inputs post (<[variable := s]> values) h2)
        as [later Hlater].
      exists later. rewrite Hlater. apply Hh2.
  - exists []. reflexivity.
Qed.

(** For a name that [Object.prototype] does not have, the command that is
    executed is the entry of the alias map for the name when there is a map and
    the entry is a non-empty string, and the name itself otherwise; the
    argument of the command is the configuration given to the call. *)
Lemma command_id_of_ordinary_name svc folder configuration variableToCommandMap
    section pre variable post values name h h1 :
  truthy configuration = true ->
  findVariables configuration [] = pre ++ variable :: post ->
  resolveLoop svc configuration variableToCommandMap (getInputs svc folder section)
              pre ∅ h = (Fulfilled (Some values), h1) ->
  splitLimit ":" 2 variable = ["command"; name] ->
  inheritedMember name = false ->
  let commandId :=
    match variableToCommandMap with
    | Some aliases =>
        match aliases !! name with
        | Some alias => if String.eqb alias "" then name else alias
        | None => name
        end
    | None => name
    end in
  exists later,
    snd (resolveWithInputAndCommands svc folder configuration variableToCommandMap
                                     section h)
    = h1 ++ ExecuteCommand (Some commandId) configuration :: later.
Proof.
  intros Ht Hscan Hpre Hsplit Hname commandId.
  rewrite (resolveWithInputAndCommands_reaches _ _ _ _ _ _ _ _ _ _ _ Ht Hscan Hpre).
  unfold commandId. rewrite <- (commandIdOf_alias_or_name _ _ Hname).
  now apply resolveLoop_command_call.
Qed.

(** [command:build.task] without alias entry executes the command "build.task"
    with the whole configuration as argument. *)
Example command_without_alias_is_its_name :
  snd (resolveWithInputAndCommands Scripted.services (Some Scripted.folder)
         (JObj [("label", JStr "build"); ("run", JStr "${command:build.task}")])
         (Some {["other" := "extension.other"]}) (Some "tasks") [])
  = [ExecuteCommand (Some "build.task")
       (JObj [("label", JStr "build"); ("run", JStr "${command:build.task}")])].
Proof. reflexivity. Qed.

(** C9, at the failing inputs: the comment of the source says that the name is
    used as the command when there is no alias.  With an alias map without
    entry for [toString], the lookup finds the function that the map inherits
    from [Object.prototype], and that function, not the name, is what is
    executed.  And for [command:a:b] the name tried in the alias map and
    executed is the piece "a" that [split(':', 2)] keeps, so that an alias for
    "a:b" is never used. *)
Theorem inherited_member_becomes_command_id :
  commandIdOf (Some ∅) (Some "toString") = IdInherited "toString" /\
  (forall svc folder section h,
      exists later,
        snd (resolveWithInputAndCommands svc folder (JStr "${command:toString}")
                                         (Some ∅) section h)
        = h ++ ExecuteCommand (IdInherited "toString") (JStr "${command:toString}")
            :: later) /\
  IdInherited "toString" <> IdValue (Some "toString") /\
  (forall svc folder section h,
      exists later,
        snd (resolveWithInputAndCommands svc folder (JStr "${command:a:b}")
                                         (Some {["a:b" := "x"]}) section h)
        = h ++ ExecuteCommand (Some "a") (JStr "${command:a:b}") :: later).
Proof.
  split; [reflexivity|split; [|split; [discriminate|]]].
  - intros svc folder section h.
    unfold resolveWithInputAndCommands. cbn [truthy String.eqb negb].
    change (findVariables (JStr "${command:toString}") []) with ["command:toString"].
    exact (resolveLoop_command_call svc (JStr "${command:toString}") (Some ∅)
             (getInputs svc folder section) "command:toString" [] ∅ "toString" h
             eq_refl).
  - intros svc folder section h.
    unfold resolveWithInputAndCommands. cbn [truthy String.eqb negb].
    change (findVariables (JStr "${command:a:b}") []) with ["command:a:b"].
    exact (resolveLoop_command_call svc (JStr "${command:a:b}") (Some {["a:b" := "x"]})
             (getInputs svc folder section) "command:a:b" [] ∅ "a" h eq_refl).
Qed.

(** An alias entry is used when it is there. *)
Example command_alias_is_used :
  snd (resolveWithInputAndCommands Scripted.services (Some Scripted.folder)
         (JStr "${command:pick}") (Some {["pick" := "extension.pickProcess"]})
         (Some "launch") [])
  = [ExecuteCommand (Some "extension.pickProcess") (JStr "${command:pick}")].
Proof. reflexivity. Qed.

(** ** InputResolver *)

(** An input variable without matching declaration, when the declarations are
    there: the fault of [inputVariable.undefinedVariable]. *)
Lemma showUserInput_undefined_variable svc variable infos h :
  List.filter (idMatches variable) infos = [] ->
  showUserInput svc variable (Some infos) h = (Thrown (UndefinedVariable variable), h).
Proof. intros H. unfold showUserInput. rewrite H. reflexivity. Qed.

(** C3, at the failing input: when the lookup of the declarations gave nothing
    ([inputs] is [undefined]), resolving any input variable stops on the
    [TypeError] of [inputInfos.filter], not on the undefined-variable fault. *)
Theorem undeclared_input_without_inputs_is_TypeError :
  (forall svc variable h,
      showUserInput svc variable None h = (Thrown TypeError, h)) /\
  (forall svc variableToCommandMap section h,
      resolveWithInputAndCommands svc None (JStr "${input:x}") variableToCommandMap
                                  section h
      = (Thrown TypeError, h)) /\
  TypeError <> UndefinedVariable (Some "x").
Proof.
  split; [|split].
  - reflexivity.
  - reflexivity.
  - discriminate.
Qed.

(** C4, at the failing input: [split(':', 2)] keeps the piece between the first
    and the second colon, so that [command:a:b] executes the command "a". *)
Theorem split_drops_text_after_second_colon :
  splitLimit ":" 2 "command:a:b" = ["command"; "a"] /\
  (forall svc folder section h,
      exists later,
        snd (resolveWithInputAndCommands svc folder (JStr "${command:a:b}") None section h)
        = h ++ ExecuteCommand (Some "a") (JStr "${command:a:b}") :: later) /\
  resolveWithInputAndCommands Scripted.services None (JStr "${command:a:b}") None None []
  = (Fulfilled (Some {["command:a:b" := "a"]}),
     [ExecuteCommand (Some "a") (JStr "${command:a:b}")]).
Proof.
  split; [reflexivity|split].
  - intros svc folder section h.
    unfold resolveWithInputAndCommands. cbn [truthy String.eqb negb].
    change (findVariables (JStr "${command:a:b}") []) with ["command:a:b"].
    exact (resolveLoop_command_call svc (JStr "${command:a:b}") None
             (getInputs svc folder section) "command:a:b" [] ∅ "a" h eq_refl).
  - vm_compute. reflexivity.
Qed.

(** C10: an empty answer to a prompt is turned into [undefined]; the variable
    gets no value and the call returns [undefined]. *)
Theorem empty_prompt_answer_aborts svc folder configuration variableToCommandMap section
    pre variable post values name infos info text h h1 :
  truthy configuration = true ->
  findVariables configuration [] = pre ++ variable :: post ->
  resolveLoop svc configuration variableToCommandMap (getInputs svc folder section)
              pre ∅ h = (Fulfilled (Some values), h1) ->
  splitLimit ":" 2 variable = ["input"; name] ->
  getInputs svc folder section = Some infos ->
  pop (List.filter (idMatches (Some name)) infos) = Some info ->
  ConfiguredInput.type info = "promptString" ->
  ConfiguredInput.description info = JStr text ->
  let inputOptions :=
    {| prompt := text;
       value := if truthy (ConfiguredInput.default info)
                then Some (ConfiguredInput.default info) else None |} in
  input svc h1 inputOptions = Resolves (Some "") ->
  showUserInput svc (Some name) (Some infos) h1
  = (Fulfilled JUndefined, h1 ++ [Input inputOptions]) /\
  resolveWithInputAndCommands svc folder configuration variableToCommandMap section h
  = (Fulfilled None, h1 ++ [Input inputOptions]).
Proof.
  intros Ht Hscan Hpre Hsplit Hinputs Hinfo Htype Hdescr inputOptions Hanswer.
  assert (Hshow : showUserInput svc (Some name) (Some infos) h1
                  = (Fulfilled JUndefined, h1 ++ [Input inputOptions])).
  { unfold showUserInput. rewrite Hinfo, Htype, Hdescr.
    cbn [String.eqb Ascii.eqb Bool.eqb]. fold inputOptions.
    unfold bind, call. rewrite Hanswer. reflexivity. }
  split; [exact Hshow|].
  rewrite (resolveWithInputAndCommands_reaches _ _ _ _ _ _ _ _ _ _ _ Ht Hscan Hpre).
  apply resolveLoop_stops with (result := JUndefined); [|reflexivity].
  unfold resolveVariable. rewrite Hsplit, Hinputs.
  cbn [lookup list_lookup String.eqb Ascii.eqb Bool.eqb]. exact Hshow.
Qed.

(** The user submits an empty box for [input:blank]: nothing is mapped and the
    command that follows is not executed. *)
Lemma empty_prompt_answer_aborts_witness :
  showUserInput Scripted.services (Some "blank") (Some Scripted.declared) []
  = (Fulfilled JUndefined, [] ++ [Input {| prompt := "empty"; value := None |}]) /\
  resolveWithInputAndCommands Scripted.services (Some Scripted.folder)
    (JStr "${input:blank}${command:echo}") None (Some "launch") []
  = (Fulfilled None, [] ++ [Input {| prompt := "empty"; value := None |}]).
Proof.
  exact (empty_prompt_answer_aborts Scripted.services (Some Scripted.folder)
           (JStr "${input:blank}${command:echo}") None (Some "launch")
           [] "input:blank" ["command:echo"] ∅ "blank" Scripted.declared
           (ConfiguredInput.Build "blank" "promptString" (JStr "empty") JUndefined
              JUndefined JUndefined JUndefined)
           "empty" [] []
           eq_refl eq_refl eq_refl eq_refl eq_refl eq_refl eq_refl eq_refl eq_refl).
Defined.

(** C6: a prompt is asked with the description as its text; its box is left
    empty when the declaration has no default and holds "foo" when the default
    is "foo".  (Without a description no prompt is shown: the missing-attribute
    fault is raised.) *)
Theorem promptString_prefill svc variable infos info h :
  pop (List.filter (idMatches variable) infos) = Some info ->
  ConfiguredInput.type info = "promptString" ->
  match ConfiguredInput.description info with
  | JStr text =>
      (ConfiguredInput.default info = JUndefined ->
       snd (showUserInput svc variable (Some infos) h)
       = h ++ [Input {| prompt := text; value := None |}]) /\
      (ConfiguredInput.default info = JStr "foo" ->
       snd (showUserInput svc variable (Some infos) h)
       = h ++ [Input {| prompt := text; value := Some (JStr "foo") |}])
  | _ =>
      showUserInput svc variable (Some infos) h
      = (Thrown (MissingAttribute variable "promptString" "description"), h)
  end.
Proof.
  intros Hinfo Htype.
  destruct (ConfiguredInput.description info) as [| | | |text| |] eqn:Hdescr;
    try (unfold showUserInput; rewrite Hinfo, Htype, Hdescr; reflexivity).
  split; intros Hdefault; unfold showUserInput;
    rewrite Hinfo, Htype, Hdescr, Hdefault;
    cbn [String.eqb Ascii.eqb Bool.eqb truthy negb];
    unfold bind, call;
    match goal with |- context [input svc h ?o] => destruct (input svc h o) end;
    reflexivity.
Qed.

Lemma promptString_prefill_witness :
  snd (showUserInput Scripted.services (Some "name") (Some Scripted.declared) [])
  = [] ++ [Input {| prompt := "d"; value := None |}] /\
  snd (showUserInput Scripted.services (Some "second") (Some Scripted.declared) [])
  = [] ++ [Input {| prompt := "cancel"; value := Some (JStr "foo") |}].
Proof.
  split.
  - exact (proj1 (promptString_prefill Scripted.services (Some "name") Scripted.declared
                    (ConfiguredInput.Build "name" "promptString" (JStr "d") JUndefined
                       JUndefined JUndefined JUndefined)
                    [] eq_refl eq_refl) eq_refl).
  - exact (proj2 (promptString_prefill Scripted.services (Some "second") Scripted.declared
                    (ConfiguredInput.Build "second" "promptString" (JStr "cancel")
                       (JStr "foo") JUndefined JUndefined JUndefined)
                    [] eq_refl eq_refl) eq_refl).
Defined.

(** Any non-empty default is the prefill; an empty one is not set. *)
Lemma promptString_value svc variable infos info text h :
  pop (List.filter (idMatches variable) infos) = Some info ->
  ConfiguredInput.type info = "promptString" ->
  ConfiguredInput.description info = JStr text ->
  snd (showUserInput svc variable (Some infos) h)
  = h ++ [Input {| prompt := text;
                   value := if truthy (ConfiguredInput.default info)
                            then Some (ConfiguredInput.default info) else None |}].
Proof.
  intros Hinfo Htype Hdescr. unfold showUserInput.
  rewrite Hinfo, Htype, Hdescr. cbn [String.eqb Ascii.eqb Bool.eqb].
  unfold bind, call.
  match goal with |- context [input svc h ?o] => destruct (input svc h o) end;
    reflexivity.
Qed.

Lemma isStringArray_strings opts : isStringArray (JArr (map JStr opts)) = true.
Proof. simpl. induction opts; simpl; auto. Qed.

Lemma stringsOf_strings opts : stringsOf (JArr (map JStr opts)) = opts.
Proof. simpl. induction opts; simpl; congruence. Qed.

Lemma repeat_app_cons {A} (a : A) n l : repeat a n ++ a :: l = a :: repeat a n ++ l.
Proof. induction n as [|n IH]; simpl; [reflexivity|]. now rewrite IH. Qed.

Lemma fold_addPick d opts : forall picks,
  fold_left (addPick (JStr d)) opts picks
  = repeat (defaultPick d) (count_occ string_dec opts d) ++ picks
    ++ map plainPick (List.filter (fun o => negb (String.eqb o d)) opts).
Proof.
  induction opts as [|o opts IH]; intros picks; simpl.
  - now rewrite app_nil_r.
  - rewrite IH. unfold addPick. simpl.
    destruct (String.eqb_spec o d) as [->|Hne].
    + destruct (string_dec d d) as [_|]; [|congruence]. simpl.
      apply repeat_app_cons.
    + destruct (string_dec o d) as [|_]; [congruence|]. simpl.
      now rewrite <- app_assoc.
Qed.

Lemma buildPicks_default_first d opts :
  buildPicks (JStr d) opts
  = repeat (defaultPick d) (count_occ string_dec opts d)
    ++ map plainPick (List.filter (fun o => negb (String.eqb o d)) opts).
Proof. unfold buildPicks. now rewrite fold_addPick. Qed.

(** C5: for a pick-list declaration whose default is one of its options, the
    list given to the picker starts with the choice labelled with the default
    and annotated as default, followed by the other options in their order, and
    the placeholder of the picker is the description.  (Without a description
    no picker is shown: the missing-attribute fault is raised.) *)
Theorem pickString_default_first svc variable infos info d opts h :
  pop (List.filter (idMatches variable) infos) = Some info ->
  ConfiguredInput.type info = "pickString" ->
  ConfiguredInput.options info = JArr (map JStr opts) ->
  ConfiguredInput.default info = JStr d ->
  In d opts ->
  let picks :=
    repeat (defaultPick d) (count_occ string_dec opts d)
    ++ map plainPick (List.filter (fun o => negb (String.eqb o d)) opts) in
  head picks = Some {| label := d; item_description := Some "Default" |} /\
  match ConfiguredInput.description info with
  | JStr text =>
      snd (showUserInput svc variable (Some infos) h)
      = h ++ [Pick picks {| placeHolder := text |}]
  | _ =>
      showUserInput svc variable (Some infos) h
      = (Thrown (MissingAttribute variable "pickString" "description"), h)
  end.
Proof.
  intros Hinfo Htype Hopts Hdefault Hin picks.
  split.
  - unfold picks. apply (count_occ_In string_dec) in Hin.
    destruct (count_occ string_dec opts d); [lia|reflexivity].
  - unfold showUserInput. rewrite Hinfo, Htype, Hopts, Hdefault.
    cbn [String.eqb Ascii.eqb Bool.eqb].
    destruct (ConfiguredInput.description info); try reflexivity.
    rewrite isStringArray_strings, stringsOf_strings, buildPicks_default_first.
    fold picks. unfold bind, call.
    match goal with |- context [pick svc h ?p ?o] => destruct (pick svc h p o) end;
      reflexivity.
Qed.

Lemma pickString_default_first_witness :
  head [defaultPick "green"; plainPick "red"; plainPick "blue"]
  = Some {| label := "green"; item_description := Some "Default" |} /\
  snd (showUserInput Scripted.services (Some "colour") (Some Scripted.declared) [])
  = [] ++ [Pick [defaultPick "green"; plainPick "red"; plainPick "blue"]
                {| placeHolder := "which colour" |}].
Proof.
  exact (pickString_default_first Scripted.services (Some "colour") Scripted.declared
           (ConfiguredInput.Build "colour" "pickString" (JStr "which colour") (JStr "green")
              (JArr [JStr "red"; JStr "green"; JStr "blue"]) JUndefined JUndefined)
           "green" ["red"; "green"; "blue"] []
           eq_refl eq_refl eq_refl eq_refl (or_intror (or_introl eq_refl))).
Defined.

(** ** Aggregator *)

Lemma map_fold_insert_lookup (entries fullMapping : gmap string string) key :
  map_fold (fun key value full => <[key := value]> full) fullMapping entries !! key
  = match entries !! key with
    | Some value => Some value
    | None => fullMapping !! key
    end.
Proof.
  revert key.
  apply (map_fold_weak_ind
           (fun (r : gmap string string) (m : gmap string string) =>
              forall key, r !! key = match m !! key with
                                     | Some value => Some value
                                     | None => fullMapping !! key
                                     end)).
  - intros key. now rewrite lookup_empty.
  - intros i x m r Hi IH key.
    destruct (decide (i = key)) as [->|Hne].
    + now rewrite !lookup_insert_eq.
    + rewrite !lookup_insert_ne by exact Hne. apply IH.
Qed.

(** C8: without new mapping, [updateMapping] returns [false] and the full
    mapping is as it was; with one, it returns [true] and the full mapping holds
    every entry of the new mapping, in place of an entry of the same key, and
    keeps its other entries. *)
Theorem updateMapping_merges (newMapping : option (gmap string string))
    (fullMapping : gmap string string) :
  match newMapping with
  | None => updateMapping newMapping fullMapping = (false, fullMapping)
  | Some entries =>
      fst (updateMapping newMapping fullMapping) = true /\
      (forall key,
          snd (updateMapping newMapping fullMapping) !! key
          = match entries !! key with
            | Some value => Some value
            | None => fullMapping !! key
            end)
  end /\
  updateMapping (Some {["a" := "1"]}) {["a" := "0"; "b" := "2"]}
  = (true, {["a" := "1"; "b" := "2"]}).
Proof.
  split.
  - destruct newMapping as [entries|]; [|reflexivity].
    split; [reflexivity|]. intros key. apply map_fold_insert_lookup.
  - vm_compute. reflexivity.
Qed.

(** ** End to end *)

(** The prompt is answered "x" and the command returns "y". *)
Example end_to_end :
  resolveWithInputAndCommands Scripted.services (Some Scripted.folder)
    (JObj [("cmd", JStr "${input:name}-${command:echo}")]) None (Some "launch") []
  = (Fulfilled (Some {["input:name" := "x"; "command:echo" := "y"]}),
     [Input {| prompt := "d"; value := None |};
      ExecuteCommand (Some "echo") (JObj [("cmd", JStr "${input:name}-${command:echo}")])]).
Proof. vm_compute. reflexivity. Qed.

(** * Further properties *)

(** ** Strings *)

#[local] Arguments String.append !s1 s2 : simpl nomatch.

Lemma append_assoc (a b c : string) : (a +:+ b) +:+ c = a +:+ (b +:+ c).
Proof. induction a as [|x a IH]; simpl; [reflexivity|]. now rewrite IH. Qed.

Lemma append_empty_r (a : string) : a +:+ "" = a.
Proof. induction a as [|x a IH]; simpl; [reflexivity|]. now rewrite IH. Qed.

Lemma length_append (a b : string) :
  String.length (a +:+ b) = (String.length a + String.length b)%nat.
Proof. induction a as [|x a IH]; simpl; [reflexivity|]. now rewrite IH. Qed.

Lemma allChars_append p a b :
  allChars p (a +:+ b) = allChars p a && allChars p b.
Proof.
  induction a as [|x a IH]; simpl; [reflexivity|].
  rewrite IH. now rewrite andb_assoc.
Qed.

(** ** The pattern *)

Lemma stripPrefix_Some p : forall s r, Pattern.stripPrefix p s = Some r -> s = p +:+ r.
Proof.
  induction p as [|a p IH]; intros s r H; simpl in *.
  - congruence.
  - destruct s as [|b s]; [discriminate|].
    destruct (Ascii.eqb_spec a b) as [->|]; [|discriminate].
    now rewrite (IH _ _ H).
Qed.

Lemma stripPrefix_append p r : Pattern.stripPrefix p (p +:+ r) = Some r.
Proof.
  induction p as [|a p IH]; simpl; [reflexivity|].
  now rewrite Ascii.eqb_refl.
Qed.

Lemma lineTerminatorAt_append a b :
  Pattern.lineTerminatorAt a = true -> Pattern.lineTerminatorAt (a +:+ b) = true.
Proof.
  destruct a as [|c [|c1 [|c2 a]]]; [discriminate|..];
    cbn [String.append Pattern.lineTerminatorAt];
    destruct (Ascii.eqb c "010"), (Ascii.eqb c "013"), (Ascii.eqb c "226");
    cbn [orb andb]; try reflexivity; try discriminate; intros H; exact H.
Qed.

Lemma lineTerminatorAt_before_brace c a post :
  Pattern.lineTerminatorAt (String c a) = false ->
  Pattern.lineTerminatorAt (String c (a +:+ String "}" post)) = false.
Proof.
  destruct a as [|c1 [|c2 a]];
    cbn [String.append Pattern.lineTerminatorAt];
    destruct (Ascii.eqb c "010"), (Ascii.eqb c "013"), (Ascii.eqb c "226");
    cbn [orb andb]; intros H; try discriminate H; try reflexivity; try exact H.
  - now destruct post.
  - apply andb_false_r.
Qed.

Lemma lazyCapture_sound s : forall cap,
  Pattern.lazyCapture s = Some cap ->
  plainName cap = true /\ exists post, s = cap +:+ String "}" post.
Proof.
  induction s as [|c s IH]; intros cap H; [discriminate|].
  cbn [Pattern.lazyCapture] in H.
  destruct (Ascii.eqb c "}") eqn:Ec.
  - injection H as <-. apply Ascii.eqb_eq in Ec as ->. split; [reflexivity|now exists s].
  - destruct (Pattern.lineTerminatorAt (String c s)) eqn:El; [discriminate|].
    destruct (Pattern.lazyCapture s) as [cap'|]; [|discriminate].
    injection H as <-. destruct (IH cap' eq_refl) as [Hall [post ->]].
    split; [|now exists post].
    cbn [plainName]. rewrite Ec, Hall. cbn [negb andb].
    destruct (Pattern.lineTerminatorAt (String c cap')) eqn:El'; [|reflexivity].
    apply (lineTerminatorAt_append _ (String "}" post)) in El'.
    change (String c cap' +:+ String "}" post)
      with (String c (cap' +:+ String "}" post)) in El'.
    congruence.
Qed.

Lemma lazyCapture_complete cap post :
  plainName cap = true ->
  Pattern.lazyCapture (cap +:+ String "}" post) = Some cap.
Proof.
  induction cap as [|c cap IH]; intros H; [reflexivity|].
  cbn [plainName] in H.
  apply andb_prop in H as [H Hcap]. apply andb_prop in H as [H1 H2].
  apply negb_true_iff in H1, H2.
  change (String c cap +:+ String "}" post) with (String c (cap +:+ String "}" post)).
  cbn [Pattern.lazyCapture].
  rewrite H1, (lineTerminatorAt_before_brace _ _ _ H2), (IH Hcap). reflexivity.
Qed.

Lemma matchHere_sound s m :
  Pattern.matchHere s = Some m ->
  isReference m /\ exists post, s = "${" +:+ m +:+ String "}" post.
Proof.
  unfold Pattern.matchHere. intros H.
  destruct (Pattern.stripPrefix "${" s) as [r|] eqn:E0; [|discriminate].
  apply stripPrefix_Some in E0 as ->.
  destruct (Pattern.stripPrefix "input:" r) as [r'|] eqn:E1.
  - apply stripPrefix_Some in E1 as ->.
    destruct (Pattern.lazyCapture r') as [cap|] eqn:Ecap; [|discriminate].
    injection H as <-. apply lazyCapture_sound in Ecap as [Hall [post ->]].
    split; [exists cap; auto|exists post; reflexivity].
  - destruct (Pattern.stripPrefix "command:" r) as [r'|] eqn:E2; [|discriminate].
    apply stripPrefix_Some in E2 as ->.
    destruct (Pattern.lazyCapture r') as [cap|] eqn:Ecap; [|discriminate].
    injection H as <-. apply lazyCapture_sound in Ecap as [Hall [post ->]].
    split; [exists cap; auto|exists post; reflexivity].
Qed.

Lemma matchHere_complete r post :
  isReference r ->
  Pattern.matchHere ("${" +:+ r +:+ String "}" post) = Some r.
Proof.
  intros [name [[-> | ->] Hall]]; unfold Pattern.matchHere; simpl;
    now rewrite (lazyCapture_complete _ _ Hall).
Qed.

Lemma matchHere_not_dollar c s :
  notChar "$" c = true -> Pattern.matchHere (String c s) = None.
Proof.
  unfold notChar. intros H. apply negb_true_iff in H.
  unfold Pattern.matchHere. cbn [Pattern.stripPrefix].
  rewrite Ascii.eqb_sym, H. reflexivity.
Qed.

Lemma execFrom_skip a : forall k b,
  Pattern.execFrom (String.length a + k) (a +:+ b) = Pattern.execFrom k b.
Proof.
  induction a as [|c a IH]; intros k b; simpl; [reflexivity|]. apply IH.
Qed.

Lemma execFrom_no_dollar pre b :
  allChars (notChar "$") pre = true ->
  Pattern.execFrom 0 (pre +:+ b) = Pattern.execFrom 0 b.
Proof.
  induction pre as [|c pre IH]; simpl; intros H; [reflexivity|].
  apply andb_prop in H as [Hc Hpre].
  change (String c (pre +:+ b)) with (String c pre +:+ b).
  simpl. rewrite (matchHere_not_dollar _ _ Hc). now apply IH.
Qed.

Lemma execFrom_sound s : forall k r,
  In r (Pattern.execFrom k s) ->
  isReference r /\ exists pre post, s = pre +:+ "${" +:+ r +:+ String "}" post.
Proof.
  induction s as [|c s IH]; intros k r Hin; [contradiction|].
  cbn [Pattern.execFrom] in Hin.
  assert (Hrest : forall k', In r (Pattern.execFrom k' s) ->
            isReference r /\
            exists pre post, String c s = pre +:+ "${" +:+ r +:+ String "}" post).
  { intros k' H. destruct (IH _ _ H) as [Href (pre & post & ->)].
    split; [exact Href|]. now exists (String c pre), post. }
  destruct k as [|k]; [|eauto].
  destruct (Pattern.matchHere (String c s)) as [m|] eqn:Em; [|eauto].
  destruct Hin as [<-|Hin]; [|eauto].
  apply matchHere_sound in Em as [Href [post Hs]].
  split; [exact Href|]. now exists "", post.
Qed.

Lemma execAll_reference pre r post :
  allChars (notChar "$") pre = true ->
  isReference r ->
  Pattern.execAll (pre +:+ "${" +:+ r +:+ String "}" post) = r :: Pattern.execAll post.
Proof.
  intros Hpre Href. unfold Pattern.execAll.
  rewrite (execFrom_no_dollar _ _ Hpre).
  change ("${" +:+ r +:+ String "}" post)
    with (String "$" ("{" +:+ r +:+ String "}" post)).
  cbn [Pattern.execFrom].
  change (String "$" ("{" +:+ r +:+ String "}" post))
    with ("${" +:+ r +:+ String "}" post).
  rewrite (matchHere_complete _ _ Href). f_equal.
  replace ("{" +:+ r +:+ String "}" post) with (("{" +:+ r +:+ "}") +:+ post)
    by (simpl; now rewrite append_assoc).
  replace (String.length r + 2)%nat with (String.length ("{" +:+ r +:+ "}") + 0)%nat
    by (simpl; rewrite length_append; simpl; lia).
  apply execFrom_skip.
Qed.

(** ** Scanner: what is found and what is kept *)

Lemma fold_pushNew_members more : forall acc r,
  In r (fold_left pushNew more acc) <-> In r acc \/ In r more.
Proof.
  induction more as [|x more IH]; intros acc r; simpl.
  - tauto.
  - rewrite IH. unfold pushNew.
    destruct (indexOf acc x <? 0)%Z eqn:E.
    + rewrite in_app_iff. simpl. intuition.
    + assert (In x acc).
      { destruct (in_dec string_dec x acc) as [H|H]; [exact H|].
        apply indexOf_neg_iff in H. congruence. }
      intuition (subst; auto).
Qed.

Lemma fold_pushNew_extends more : forall acc,
  exists added, fold_left pushNew more acc = acc ++ added.
Proof.
  induction more as [|x more IH]; intros acc; simpl.
  - exists []. now rewrite app_nil_r.
  - destruct (IH (pushNew acc x)) as [added ->]. unfold pushNew.
    destruct (indexOf acc x <? 0)%Z.
    + exists (x :: added). now rewrite <- app_assoc.
    + now exists added.
Qed.

Lemma fold_pushNew_NoDup more : forall acc,
  NoDup acc -> NoDup (fold_left pushNew more acc).
Proof.
  induction more as [|x more IH]; intros acc Hnd; simpl; [exact Hnd|].
  apply IH. unfold pushNew.
  destruct (indexOf acc x <? 0)%Z eqn:E; [|exact Hnd].
  apply indexOf_neg_iff in E.
  apply NoDup_app. repeat split; [exact Hnd| |apply NoDup_singleton].
  intros y Hy Hy'. apply list_elem_of_In in Hy.
  apply list_elem_of_singleton in Hy'. subst. contradiction.
Qed.

Lemma fold_pushNew_absorbed more : forall acc,
  (forall r, In r more -> In r acc) -> fold_left pushNew more acc = acc.
Proof.
  induction more as [|x more IH]; intros acc H; simpl; [reflexivity|].
  rewrite pushNew_present by (apply H; now left).
  apply IH. intros r Hr. apply H. now right.
Qed.

Lemma occurrences_strings object r :
  In r (occurrences object) <->
  exists s, In s (stringsIn object) /\ In r (Pattern.execAll s).
Proof.
  induction object as [| | | | |xs IH|kvs IH] using JsVal_nested_ind; simpl;
    try (split; [contradiction|intros (s & [] & _)]).
  - split; [intros H; exists s; auto|intros (s' & [<-|[]] & H); exact H].
  - rewrite in_flat_map. split.
    + intros (x & Hx & Hr). rewrite List.Forall_forall in IH.
      apply (IH x Hx) in Hr as (s & Hs & Hr).
      exists s. split; [|exact Hr]. apply in_flat_map. eauto.
    + intros (s & Hs & Hr). apply in_flat_map in Hs as (x & Hx & Hs).
      exists x. split; [exact Hx|]. rewrite List.Forall_forall in IH.
      apply (IH x Hx). eauto.
  - rewrite in_flat_map. split.
    + intros (kv & Hkv & Hr). rewrite List.Forall_forall in IH.
      apply (IH kv Hkv) in Hr as (s & Hs & Hr).
      exists s. split; [|exact Hr]. apply in_flat_map. eauto.
    + intros (s & Hs & Hr). apply in_flat_map in Hs as (kv & Hkv & Hs).
      exists kv. split; [exact Hkv|]. rewrite List.Forall_forall in IH.
      apply (IH kv Hkv). eauto.
Qed.

Lemma findVariables_members object acc r :
  In r (findVariables object acc) <-> In r acc \/ In r (occurrences object).
Proof. rewrite findVariables_fold. apply fold_pushNew_members. Qed.

Lemma scanned_isReference object r :
  In r (findVariables object []) -> isReference r.
Proof.
  intros H. apply findVariables_members in H as [[]|H].
  apply occurrences_strings in H as (s & _ & H).
  now apply execFrom_sound in H.
Qed.

(** The dot refuses U+2028 (the bytes E2 80 A8) as it refuses LF: no match.
    Another character of three bytes, here U+20AC, is part of the name. *)
Example scan_refuses_line_separator :
  findVariables
    (JArr [JStr ("${input:a" +:+ String "226" (String "128" (String "168" "b}")));
           JStr ("${input:a" +:+ String "010" "b}");
           JStr ("${input:a" +:+ String "226" (String "130" (String "172" "b}")))]) []
  = ["input:a" +:+ String "226" (String "130" (String "172" "b"))].
Proof. reflexivity. Qed.

(** X1: whatever the scan lists is a reference [input:name] or [command:name]
    that stands, wrapped in [${] and a brace, in some string of the tree. *)
Theorem scan_sound object r :
  In r (findVariables object []) ->
  isReference r /\
  exists s pre post,
    In s (stringsIn object) /\ s = pre +:+ "${" +:+ r +:+ String "}" post.
Proof.
  intros H. apply findVariables_members in H as [[]|H].
  apply occurrences_strings in H as (s & Hs & H).
  apply execFrom_sound in H as [Href (pre & post & Heq)].
  split; [exact Href|]. now exists s, pre, post.
Qed.

Lemma scan_sound_witness :
  isReference "command:pick" /\
  exists s pre post,
    In s (stringsIn (JObj [("args", JArr [JStr "--pid"; JStr "=${command:pick}!"])])) /\
    s = pre +:+ "${" +:+ "command:pick" +:+ String "}" post.
Proof.
  apply (scan_sound (JObj [("args", JArr [JStr "--pid"; JStr "=${command:pick}!"])])
           "command:pick").
  vm_compute. left. reflexivity.
Defined.

(** X2: a reference wrapped in [${] and a brace in a string of the tree is
    listed by the scan, when its name has no closing brace and no line
    terminator (LF, CR, U+2028, U+2029) and the text before it in that string
    has no dollar sign. *)
Theorem scan_complete object pre r post :
  In (pre +:+ "${" +:+ r +:+ String "}" post) (stringsIn object) ->
  allChars (notChar "$") pre = true ->
  isReference r ->
  In r (findVariables object []).
Proof.
  intros Hs Hpre Href. apply findVariables_members. right.
  apply occurrences_strings. eexists. split; [exact Hs|].
  rewrite (execAll_reference _ _ _ Hpre Href). now left.
Qed.

Lemma scan_complete_witness :
  In "input:port"
     (findVariables (JObj [("url", JStr "http://localhost:${input:port}/x")]) []).
Proof.
  apply (scan_complete (JObj [("url", JStr "http://localhost:${input:port}/x")])
           "http://localhost:" "input:port" "/x").
  - left. reflexivity.
  - reflexivity.
  - exists "port". split; [left; reflexivity|reflexivity].
Defined.

(** X3: in a string, the first reference after text without dollar sign is
    listed first, and the scan goes on with what follows its closing brace;
    the name of a reference has no closing brace and no line terminator (LF,
    CR, U+2028, U+2029). *)
Theorem scan_string_reference_then_rest pre r post :
  allChars (notChar "$") pre = true ->
  isReference r ->
  findVariables (JStr (pre +:+ "${" +:+ r +:+ String "}" post)) []
  = findVariables (JStr post) [r].
Proof.
  intros Hpre Href. cbn [findVariables].
  now rewrite (execAll_reference _ _ _ Hpre Href).
Qed.

Lemma scan_string_reference_then_rest_witness :
  findVariables (JStr ("run " +:+ "${" +:+ "command:a" +:+ String "}" " ${input:b}")) []
  = findVariables (JStr " ${input:b}") ["command:a"].
Proof.
  apply (scan_string_reference_then_rest "run " "command:a" " ${input:b}").
  - reflexivity.
  - exists "a". split; [right; reflexivity|reflexivity].
Defined.

(** X4: the scan only appends to the list it is given: what was listed stays
    in place, and a list without duplicates stays without duplicates. *)
Theorem findVariables_keeps_accumulator object variables :
  (exists added, findVariables object variables = variables ++ added) /\
  (NoDup variables -> NoDup (findVariables object variables)).
Proof.
  rewrite findVariables_fold. split.
  - apply fold_pushNew_extends.
  - apply fold_pushNew_NoDup.
Qed.

Lemma findVariables_keeps_accumulator_witness :
  NoDup (findVariables (JArr [JStr "${input:b}${input:a}"]) ["input:a"; "command:c"]).
Proof.
  apply (proj2 (findVariables_keeps_accumulator (JArr [JStr "${input:b}${input:a}"])
                  ["input:a"; "command:c"])).
  apply NoDup_cons_2; [|apply NoDup_singleton].
  intros H. apply list_elem_of_singleton in H. discriminate H.
Defined.

(** X5: scanning a tree a second time into the list adds nothing. *)
Theorem findVariables_idempotent object variables :
  findVariables object (findVariables object variables)
  = findVariables object variables.
Proof.
  rewrite (findVariables_fold object (findVariables object variables)).
  apply fold_pushNew_absorbed. intros r Hr.
  apply findVariables_members. now right.
Qed.

(** X6: a mapping is scanned as the sequence of its values: its keys are not
    searched for references. *)
Theorem findVariables_object_values kvs variables :
  findVariables (JObj kvs) variables = findVariables (JArr (map snd kvs)) variables.
Proof.
  cbn [findVariables]. revert variables.
  induction kvs as [|kv kvs IH]; intros variables; simpl; [reflexivity|]. apply IH.
Qed.

Lemma occurrences_plain object :
  (forall s, In s (stringsIn object) -> allChars (notChar "$") s = true) ->
  occurrences object = [].
Proof.
  intros H.
  destruct (occurrences object) as [|r rest] eqn:E; [reflexivity|exfalso].
  assert (Hin : In r (occurrences object)) by (rewrite E; now left).
  apply occurrences_strings in Hin as (s & Hs & Hr).
  apply execFrom_sound in Hr as [_ (pre & post & Heq)].
  specialize (H s Hs). rewrite Heq, allChars_append in H.
  apply andb_prop in H as [_ H]. discriminate H.
Qed.

(** X7: a tree whose strings hold no dollar sign has no variable. *)
Theorem scan_without_dollar object :
  (forall s, In s (stringsIn object) -> allChars (notChar "$") s = true) ->
  findVariables object [] = [].
Proof.
  intros H. rewrite findVariables_fold.
  rewrite (occurrences_plain object H). reflexivity.
Qed.

Lemma scan_without_dollar_witness :
  findVariables (JObj [("name", JStr "build"); ("args", JArr [JStr "-v"; JNum 2])]) [] = [].
Proof.
  apply (scan_without_dollar
           (JObj [("name", JStr "build"); ("args", JArr [JStr "-v"; JNum 2])])).
  intros s [<-|[<-|[]]]; reflexivity.
Defined.

(** ** [split] *)

Lemma split_not_nil sep s : split sep s <> [].
Proof.
  destruct s as [|c s]; simpl; [discriminate|].
  destruct (Ascii.eqb c sep); [discriminate|].
  destruct (split sep s); discriminate.
Qed.

Lemma split_plain sep a :
  allChars (notChar sep) a = true -> split sep a = [a].
Proof.
  induction a as [|c a IH]; simpl; intros H; [reflexivity|].
  apply andb_prop in H as [Hc Ha]. unfold notChar in Hc.
  apply negb_true_iff in Hc. rewrite Hc, (IH Ha). reflexivity.
Qed.

Lemma split_plain_prefix sep a b :
  allChars (notChar sep) a = true ->
  split sep (a +:+ String sep b) = a :: split sep b.
Proof.
  induction a as [|c a IH]; simpl; intros H.
  - now rewrite Ascii.eqb_refl.
  - apply andb_prop in H as [Hc Ha]. unfold notChar in Hc.
    apply negb_true_iff in Hc. rewrite Hc, (IH Ha). reflexivity.
Qed.

(** X8: joining the pieces of [split] with the separator gives the string
    back. *)
Theorem split_concat sep s :
  String.concat (String sep "") (split sep s) = s.
Proof.
  induction s as [|c s IH]; simpl; [reflexivity|].
  pose proof (split_not_nil sep s) as Hnn.
  destruct (split sep s) as [|piece pieces] eqn:E; [contradiction|].
  destruct (Ascii.eqb_spec c sep) as [->|Hne].
  - change (String.concat (String sep "") ("" :: piece :: pieces))
      with ("" +:+ String sep "" +:+ String.concat (String sep "") (piece :: pieces)).
    rewrite IH. reflexivity.
  - destruct pieces as [|piece' pieces].
    + cbn [String.concat] in *. now rewrite IH.
    + change (String.concat (String sep "") (String c piece :: piece' :: pieces))
        with (String c (piece +:+ String sep ""
                        +:+ String.concat (String sep "") (piece' :: pieces))).
      change (String.concat (String sep "") (piece :: piece' :: pieces))
        with (piece +:+ String sep ""
              +:+ String.concat (String sep "") (piece' :: pieces)) in IH.
      now rewrite IH.
Qed.

(** X9: [split] gives at least one piece, and no piece holds the separator. *)
Theorem split_pieces sep s :
  split sep s <> [] /\
  Forall (fun piece => allChars (notChar sep) piece = true) (split sep s).
Proof.
  split; [apply split_not_nil|].
  induction s as [|c s IH]; simpl.
  - now constructor.
  - destruct (Ascii.eqb c sep) eqn:E.
    + now constructor.
    + destruct (split sep s) as [|piece pieces]; [now repeat constructor; simpl; unfold notChar; rewrite E|].
      apply Forall_cons in IH as [Hp Hps].
      constructor; [|exact Hps]. simpl. unfold notChar at 1. now rewrite E.
Qed.

(** X10: a reference whose kind and name hold no colon is split into exactly
    its kind and its name. *)
Theorem splitLimit_kind_name kind name :
  allChars (notChar ":") kind = true ->
  allChars (notChar ":") name = true ->
  splitLimit ":" 2 (kind +:+ String ":" name) = [kind; name].
Proof.
  intros Hk Hn. unfold splitLimit.
  now rewrite (split_plain_prefix _ _ _ Hk), (split_plain _ _ Hn).
Qed.

Lemma splitLimit_kind_name_witness :
  splitLimit ":" 2 ("command" +:+ String ":" "extension.pickProcess")
  = ["command"; "extension.pickProcess"].
Proof.
  apply (splitLimit_kind_name "command" "extension.pickProcess"); reflexivity.
Defined.

(** X11: when the name holds a colon, the limit drops the colon and all that
    follows it: the second piece is the text between the first two colons. *)
Theorem splitLimit_drops_after_second_colon kind name rest :
  allChars (notChar ":") kind = true ->
  allChars (notChar ":") name = true ->
  splitLimit ":" 2 (kind +:+ String ":" (name +:+ String ":" rest)) = [kind; name].
Proof.
  intros Hk Hn. unfold splitLimit.
  now rewrite (split_plain_prefix _ _ _ Hk), (split_plain_prefix _ _ _ Hn).
Qed.

Lemma splitLimit_drops_after_second_colon_witness :
  splitLimit ":" 2 ("input" +:+ String ":" ("db" +:+ String ":" "port:number"))
  = ["input"; "db"].
Proof.
  apply (splitLimit_drops_after_second_colon "input" "db" "port:number"); reflexivity.
Defined.

(** X12: every variable of the scan splits into a kind that is [input] or
    [command] and a name: the [switch] of the loop always takes one of its two
    cases, and the name is never [undefined]. *)
Theorem scanned_variable_dispatch object variable :
  In variable (findVariables object []) ->
  exists type name,
    splitLimit ":" 2 variable = [type; name] /\ (type = "input" \/ type = "command").
Proof.
  intros H. apply scanned_isReference in H as [name0 [[-> | ->] _]];
    pose proof (split_not_nil ":" name0) as Hnn; unfold splitLimit.
  - change ("input:" +:+ name0) with ("input" +:+ String ":" name0).
    rewrite split_plain_prefix by reflexivity.
    destruct (split ":" name0) as [|piece pieces]; [contradiction|].
    exists "input", piece. split; [reflexivity|now left].
  - change ("command:" +:+ name0) with ("command" +:+ String ":" name0).
    rewrite split_plain_prefix by reflexivity.
    destruct (split ":" name0) as [|piece pieces]; [contradiction|].
    exists "command", piece. split; [reflexivity|now right].
Qed.

Lemma scanned_variable_dispatch_witness :
  exists type name,
    splitLimit ":" 2 "input:port" = [type; name] /\ (type = "input" \/ type = "command").
Proof.
  apply (scanned_variable_dispatch (JArr [JStr "${command:c}"; JStr "-p ${input:port}"])
           "input:port").
  vm_compute. right. left. reflexivity.
Defined.

(** ** InputResolver: declarations, faults and calls *)

Lemma pop_app_last {A} (l : list A) x : pop (l ++ [x]) = Some x.
Proof.
  induction l as [|y l IH]; [reflexivity|].
  change ((y :: l) ++ [x]) with (y :: (l ++ [x])). cbn [pop].
  destruct (l ++ [x]) eqn:E; [now destruct l|exact IH].
Qed.

Lemma pop_filter_last variable before info after :
  idMatches variable info = true ->
  List.filter (idMatches variable) after = [] ->
  pop (List.filter (idMatches variable) (before ++ info :: after)) = Some info.
Proof.
  intros Hinfo Hafter.
  rewrite List.filter_app. cbn [List.filter]. rewrite Hinfo, Hafter.
  apply pop_app_last.
Qed.

(** X13: when several declarations have the identifier of the variable, the
    last one is used; the declarations before it and the ones with another
    identifier play no part. *)
Theorem showUserInput_last_declaration_wins svc variable before info after h :
  idMatches variable info = true ->
  List.filter (idMatches variable) after = [] ->
  showUserInput svc variable (Some (before ++ info :: after)) h
  = showUserInput svc variable (Some [info]) h.
Proof.
  intros Hinfo Hafter. unfold showUserInput.
  rewrite (pop_filter_last _ _ _ _ Hinfo Hafter).
  cbn [List.filter]. rewrite Hinfo. reflexivity.
Qed.

Lemma showUserInput_last_declaration_wins_witness :
  showUserInput Scripted.services (Some "name")
    (Some ([ConfiguredInput.Build "name" "pickString" (JStr "old") JUndefined
              (JArr [JStr "a"]) JUndefined JUndefined]
           ++ ConfiguredInput.Build "name" "promptString" (JStr "d") JUndefined
                JUndefined JUndefined JUndefined
           :: [ConfiguredInput.Build "other" "promptString" (JStr "o") JUndefined
                 JUndefined JUndefined JUndefined])) []
  = showUserInput Scripted.services (Some "name")
      (Some [ConfiguredInput.Build "name" "promptString" (JStr "d") JUndefined
               JUndefined JUndefined JUndefined]) [].
Proof.
  apply (showUserInput_last_declaration_wins Scripted.services (Some "name")); reflexivity.
Defined.

(** X14: a declaration whose type is none of [promptString], [pickString] and
    [command] raises the unknown-type fault, and no service is called. *)
Theorem showUserInput_unknown_type svc variable infos info h :
  pop (List.filter (idMatches variable) infos) = Some info ->
  ConfiguredInput.type info <> "promptString" ->
  ConfiguredInput.type info <> "pickString" ->
  ConfiguredInput.type info <> "command" ->
  showUserInput svc variable (Some infos) h = (Thrown (UnknownInputType variable), h).
Proof.
  intros Hinfo H1 H2 H3. unfold showUserInput. rewrite Hinfo.
  apply String.eqb_neq in H1, H2, H3. rewrite H1, H2, H3. reflexivity.
Qed.

Lemma showUserInput_unknown_type_witness :
  showUserInput Scripted.services (Some "n")
    (Some [ConfiguredInput.Build "n" "PromptString" (JStr "d") JUndefined JUndefined
             JUndefined JUndefined]) []
  = (Thrown (UnknownInputType (Some "n")), []).
Proof.
  apply (showUserInput_unknown_type Scripted.services (Some "n")
           [ConfiguredInput.Build "n" "PromptString" (JStr "d") JUndefined JUndefined
              JUndefined JUndefined]
           (ConfiguredInput.Build "n" "PromptString" (JStr "d") JUndefined JUndefined
              JUndefined JUndefined) []);
    [reflexivity|discriminate|discriminate|discriminate].
Defined.

(** X15: the attributes a declaration must have.  A prompt or a pick list
    without string description, a pick list whose options are not an array of
    strings, a command input without string command: each raises the
    missing-attribute fault that names the attribute, the description first,
    and no service is called. *)
Theorem showUserInput_missing_attribute svc variable infos info h :
  pop (List.filter (idMatches variable) infos) = Some info ->
  (ConfiguredInput.type info = "promptString" ->
   isString (ConfiguredInput.description info) = false ->
   showUserInput svc variable (Some infos) h
   = (Thrown (MissingAttribute variable "promptString" "description"), h)) /\
  (ConfiguredInput.type info = "pickString" ->
   isString (ConfiguredInput.description info) = false ->
   showUserInput svc variable (Some infos) h
   = (Thrown (MissingAttribute variable "pickString" "description"), h)) /\
  (ConfiguredInput.type info = "pickString" ->
   isString (ConfiguredInput.description info) = true ->
   isStringArray (ConfiguredInput.options info) = false ->
   showUserInput svc variable (Some infos) h
   = (Thrown (MissingAttribute variable "pickString" "options"), h)) /\
  (ConfiguredInput.type info = "command" ->
   isString (ConfiguredInput.command info) = false ->
   showUserInput svc variable (Some infos) h
   = (Thrown (MissingAttribute variable "command" "command"), h)).
Proof.
  intros Hinfo. unfold showUserInput. rewrite Hinfo.
  repeat split; intros Htype; rewrite Htype; cbn [String.eqb Ascii.eqb Bool.eqb].
  - intros Hd. destruct (ConfiguredInput.description info); try reflexivity; discriminate.
  - intros Hd. destruct (ConfiguredInput.description info); try reflexivity; discriminate.
  - intros Hd Ho. destruct (ConfiguredInput.description info); try discriminate.
    now rewrite Ho.
  - intros Hc. destruct (ConfiguredInput.command info); try reflexivity; discriminate.
Qed.

Lemma showUserInput_missing_attribute_witness :
  showUserInput Scripted.services (Some "n")
    (Some [ConfiguredInput.Build "n" "pickString" (JStr "which") JUndefined
             (JArr [JStr "a"; JNum 1]) JUndefined JUndefined]) []
  = (Thrown (MissingAttribute (Some "n") "pickString" "options"), []).
Proof.
  apply (proj1 (proj2 (proj2
           (showUserInput_missing_attribute Scripted.services (Some "n")
              [ConfiguredInput.Build "n" "pickString" (JStr "which") JUndefined
                 (JArr [JStr "a"; JNum 1]) JUndefined JUndefined]
              (ConfiguredInput.Build "n" "pickString" (JStr "which") JUndefined
                 (JArr [JStr "a"; JNum 1]) JUndefined JUndefined) [] eq_refl))));
    reflexivity.
Defined.

(** X16: an input of type [command] executes its own command with its own
    [args] (not with the configuration).  A string or [undefined]/[null] result
    is passed on as it is, any other result raises the fault of
    [inputVariable.command.noStringType], and a rejection of the command is
    the outcome of the resolution. *)
Theorem showUserInput_command_input svc variable infos info c h :
  pop (List.filter (idMatches variable) infos) = Some info ->
  ConfiguredInput.type info = "command" ->
  ConfiguredInput.command info = JStr c ->
  showUserInput svc variable (Some infos) h
  = (match executeCommand svc h (Some c) (ConfiguredInput.args info) with
     | Resolves result =>
         if isString result || isUndefinedOrNull result then Fulfilled result
         else Thrown (InvalidResultType_input variable c)
     | Rejects reason => Thrown (Rejection reason)
     end,
     h ++ [ExecuteCommand (Some c) (ConfiguredInput.args info)]).
Proof.
  intros Hinfo Htype Hc. unfold showUserInput.
  rewrite Hinfo, Htype, Hc. cbn [String.eqb Ascii.eqb Bool.eqb].
  unfold bind, call.
  destruct (executeCommand svc h (Some c) (ConfiguredInput.args info)) as [result|reason];
    [|reflexivity].
  now destruct (isString result || isUndefinedOrNull result).
Qed.

Lemma showUserInput_command_input_witness :
  showUserInput Scripted.services (Some "n")
    (Some [ConfiguredInput.Build "n" "command" JUndefined JUndefined JUndefined
             (JStr "count") (JArr [JNum 1])]) []
  = (Thrown (InvalidResultType_input (Some "n") "count"),
     [] ++ [ExecuteCommand (Some "count") (JArr [JNum 1])]).
Proof.
  exact (showUserInput_command_input Scripted.services (Some "n")
           [ConfiguredInput.Build "n" "command" JUndefined JUndefined JUndefined
              (JStr "count") (JArr [JNum 1])]
           (ConfiguredInput.Build "n" "command" JUndefined JUndefined JUndefined
              (JStr "count") (JArr [JNum 1])) "count" [] eq_refl eq_refl eq_refl).
Defined.

Lemma showUserInput_cases svc variable inputInfos h :
  (exists f, showUserInput svc variable inputInfos h = (Thrown f, h) /\
             declarationFault f = true) \/
  (exists e o, showUserInput svc variable inputInfos h = (o, h ++ [e]) /\
               match o with
               | Fulfilled r => isString r || isUndefinedOrNull r = true
               | Thrown f => declarationFault f = false
               end).
Proof.
  unfold showUserInput.
  destruct inputInfos as [infos|]; [|left; eexists; split; reflexivity].
  destruct (pop _) as [info|]; [|left; eexists; split; reflexivity].
  destruct (String.eqb (ConfiguredInput.type info) "promptString").
  { destruct (ConfiguredInput.description info);
      try (left; eexists; split; reflexivity).
    right. unfold bind, call.
    match goal with |- context [input svc h ?o] => destruct (input svc h o) as [[answer|]|] end;
      do 2 eexists; (split; [reflexivity|]); try reflexivity.
    now destruct (truthy (JStr answer)). }
  destruct (String.eqb (ConfiguredInput.type info) "pickString").
  { destruct (ConfiguredInput.description info);
      try (left; eexists; split; reflexivity).
    destruct (isStringArray _); [|left; eexists; split; reflexivity].
    right. unfold bind, call.
    match goal with |- context [pick svc h ?p ?o] => destruct (pick svc h p o) as [[item|]|] end;
      do 2 eexists; (split; [reflexivity|]); reflexivity. }
  destruct (String.eqb (ConfiguredInput.type info) "command");
    [|left; eexists; split; reflexivity].
  destruct (ConfiguredInput.command info);
    try (left; eexists; split; reflexivity).
  right. unfold bind, call.
  match goal with
  | |- context [executeCommand svc h ?c ?a] =>
      destruct (executeCommand svc h c a) as [result|] end.
  - destruct (isString result || isUndefinedOrNull result) eqn:E;
      do 2 eexists; (split; [reflexivity|]); [exact E|reflexivity].
  - do 2 eexists. split; reflexivity.
Qed.

(** X17: the faults of the declaration (no declarations at all, no declaration
    for the variable, unknown type, missing attribute) are raised before any
    service is called. *)
Theorem showUserInput_declaration_fault_before_call svc variable inputInfos h f h' :
  showUserInput svc variable inputInfos h = (Thrown f, h') ->
  declarationFault f = true ->
  h' = h.
Proof.
  intros Hrun Hf.
  destruct (showUserInput_cases svc variable inputInfos h)
    as [(f' & Hc & _)|(e & o & Hc & Ho)]; rewrite Hc in Hrun.
  - congruence.
  - injection Hrun as -> _. congruence.
Qed.

Lemma showUserInput_declaration_fault_before_call_witness :
  snd (showUserInput Scripted.services (Some "absent") (Some Scripted.declared)
         [Input {| prompt := "d"; value := None |}])
  = [Input {| prompt := "d"; value := None |}].
Proof.
  apply (showUserInput_declaration_fault_before_call Scripted.services (Some "absent")
           (Some Scripted.declared) [Input {| prompt := "d"; value := None |}]
           (UndefinedVariable (Some "absent"))); reflexivity.
Defined.

(** X18: resolving one input calls a service at most once. *)
Theorem showUserInput_at_most_one_call svc variable inputInfos h :
  exists later,
    snd (showUserInput svc variable inputInfos h) = h ++ later /\ (length later <= 1)%nat.
Proof.
  destruct (showUserInput_cases svc variable inputInfos h)
    as [(f & Hc & _)|(e & o & Hc & _)]; rewrite Hc.
  - exists []. split; [simpl; now rewrite app_nil_r|simpl; lia].
  - exists [e]. split; [reflexivity|simpl; lia].
Qed.

(** X19: what an input resolves to is a string, [undefined] or [null], and it
    takes exactly one service call to get it. *)
Theorem showUserInput_yields_string_or_nullish svc variable inputInfos h result h' :
  showUserInput svc variable inputInfos h = (Fulfilled result, h') ->
  isString result || isUndefinedOrNull result = true /\ exists e, h' = h ++ [e].
Proof.
  intros Hrun.
  destruct (showUserInput_cases svc variable inputInfos h)
    as [(f & Hc & _)|(e & o & Hc & Ho)]; rewrite Hc in Hrun.
  - discriminate.
  - injection Hrun as -> <-. split; [exact Ho|now exists e].
Qed.

Lemma showUserInput_yields_string_or_nullish_witness :
  isString (JStr "green") || isUndefinedOrNull (JStr "green") = true /\
  exists e,
    [Pick [defaultPick "green"; plainPick "red"; plainPick "blue"]
          {| placeHolder := "which colour" |}] = [] ++ [e].
Proof.
  apply (showUserInput_yields_string_or_nullish Scripted.services (Some "colour")
           (Some Scripted.declared) []).
  reflexivity.
Defined.

Lemma fold_addPick_labels default opts : forall picks,
  Permutation (map label (fold_left (addPick default) opts picks))
              (map label picks ++ opts).
Proof.
  induction opts as [|o opts IH]; intros picks; simpl.
  - now rewrite app_nil_r.
  - rewrite IH. unfold addPick.
    destruct (strictEqString o default); simpl.
    + apply Permutation_middle.
    + rewrite map_app. simpl. now rewrite <- app_assoc.
Qed.

Lemma fold_addPick_plain default opts : forall picks,
  (forall o, In o opts -> strictEqString o default = false) ->
  fold_left (addPick default) opts picks = picks ++ map plainPick opts.
Proof.
  induction opts as [|o opts IH]; intros picks H; simpl.
  - now rewrite app_nil_r.
  - rewrite IH by (intros o' Ho'; apply H; now right).
    unfold addPick. rewrite (H o) by now left.
    now rewrite <- app_assoc.
Qed.

(** X20: the pick list offers exactly the options: its labels are the options
    up to order, each as often as it is listed; and when no option is the
    default, the list is the options in their order, none annotated. *)
Theorem buildPicks_offers_the_options default opts :
  Permutation (map label (buildPicks default opts)) opts /\
  ((forall o, In o opts -> strictEqString o default = false) ->
   buildPicks default opts = map plainPick opts).
Proof.
  unfold buildPicks. split.
  - apply (fold_addPick_labels default opts []).
  - intros H. apply (fold_addPick_plain default opts [] H).
Qed.

Lemma buildPicks_offers_the_options_witness :
  buildPicks (JStr "yellow") ["red"; "green"] = map plainPick ["red"; "green"].
Proof.
  apply (proj2 (buildPicks_offers_the_options (JStr "yellow") ["red"; "green"])).
  intros o [<-|[<-|[]]]; reflexivity.
Defined.

(** ** Orchestrator: faults, calls and the mapping *)

Lemma resolveVariable_cases svc configuration variableToCommandMap inputs variable h :
  (exists o, resolveVariable svc configuration variableToCommandMap inputs variable h
             = (o, h) /\
             forall s, o <> Fulfilled (JStr s)) \/
  (exists e o, resolveVariable svc configuration variableToCommandMap inputs variable h
               = (o, h ++ [e])).
Proof.
  unfold resolveVariable.
  destruct (_ !! 0%nat) as [type|]; [|left; eexists; split; [reflexivity|discriminate]].
  destruct (String.eqb type "input").
  { destruct (showUserInput_cases svc (splitLimit ":" 2 variable !! 1%nat) inputs h)
      as [(f & Hc & _)|(e & o & Hc & _)]; rewrite Hc.
    - left. eexists. split; [reflexivity|discriminate].
    - right. eauto. }
  destruct (String.eqb type "command");
    [|left; eexists; split; [reflexivity|discriminate]].
  right. unfold bind, call.
  match goal with
  | |- context [executeCommand svc h ?c ?a] =>
      destruct (executeCommand svc h c a) as [result|] end; [|eauto].
  destruct (negb (isString result) && negb (isUndefinedOrNull result)); eauto.
Qed.

Lemma resolveLoop_fault svc configuration variableToCommandMap inputs variable post
    values f h1 h2 :
  resolveVariable svc configuration variableToCommandMap inputs variable h1
  = (Thrown f, h2) ->
  resolveLoop svc configuration variableToCommandMap inputs (variable :: post) values h1
  = (Thrown f, h2).
Proof. intros H. cbn [resolveLoop]. now apply bind_thrown. Qed.

Lemma resolveLoop_calls svc configuration variableToCommandMap inputs variables :
  forall values h,
  exists later,
    snd (resolveLoop svc configuration variableToCommandMap inputs variables values h)
    = h ++ later /\
    (length later <= length variables)%nat /\
    (forall m,
        fst (resolveLoop svc configuration variableToCommandMap inputs variables values h)
        = Fulfilled (Some m) ->
        length later = length variables).
Proof.
  induction variables as [|variable rest IH]; intros values h.
  - exists []. simpl. rewrite app_nil_r. auto.
  - cbn [resolveLoop]. unfold bind.
    destruct (resolveVariable_cases svc configuration variableToCommandMap inputs
                variable h) as [(o & Hc & Hns)|(e & o & Hc)]; rewrite Hc.
    + exists []. rewrite app_nil_r.
      destruct o as [result|f]; [destruct result|];
        try (now destruct (Hns s));
        simpl; repeat split; try lia; discriminate.
    + destruct o as [result|f];
        [destruct result|];
        try (exists [e]; simpl; repeat split; [lia|discriminate]).
      destruct (IH (<[variable := s]> values) (h ++ [e])) as (later & Hl & Hle & Heq).
      exists (e :: later). rewrite Hl, <- app_assoc. simpl.
      repeat split; [lia|]. intros m Hm. now rewrite (Heq m Hm).
Qed.

Lemma resolveLoop_keys svc configuration variableToCommandMap inputs variables :
  forall values h m h',
  resolveLoop svc configuration variableToCommandMap inputs variables values h
  = (Fulfilled (Some m), h') ->
  (forall key, is_Some (m !! key) <-> is_Some (values !! key) \/ In key variables) /\
  (forall key, ~ In key variables -> m !! key = values !! key).
Proof.
  induction variables as [|variable rest IH]; intros values h m h' Hrun.
  - simpl in Hrun. injection Hrun as -> _. split; [intros key; simpl; tauto|reflexivity].
  - cbn [resolveLoop] in Hrun. unfold bind in Hrun.
    destruct (resolveVariable _ _ _ _ _ h) as [[result|f] h1]; [|discriminate].
    destruct result; try discriminate.
    apply IH in Hrun as [Hdom Hother]. split.
    + intros key. rewrite Hdom. simpl.
      destruct (decide (variable = key)) as [->|Hne].
      * rewrite lookup_insert_eq. intuition eauto.
      * rewrite lookup_insert_ne by exact Hne. intuition congruence.
    + intros key Hn. rewrite Hother by (intros H; apply Hn; now right).
      apply lookup_insert_ne. intros ->. apply Hn. now left.
Qed.

(** X21: the mapping of a successful call has a value for every variable of the
    scan and for nothing else. *)
Theorem resolved_mapping_domain svc folder configuration variableToCommandMap section
    h m h' :
  resolveWithInputAndCommands svc folder configuration variableToCommandMap section h
  = (Fulfilled (Some m), h') ->
  forall key, is_Some (m !! key) <-> In key (findVariables configuration []).
Proof.
  unfold resolveWithInputAndCommands. intros Hrun key.
  destruct (negb (truthy configuration)); [discriminate|].
  apply resolveLoop_keys in Hrun as [Hdom _]. rewrite Hdom, lookup_empty.
  split; [intros [[? H]|H]; [discriminate|exact H]|auto].
Qed.

Lemma resolved_mapping_domain_witness :
  is_Some (({["input:name" := "x"; "command:echo" := "y"]} : gmap string string)
             !! "command:echo")
  <-> In "command:echo"
         (findVariables (JObj [("cmd", JStr "${input:name}-${command:echo}")]) []).
Proof.
  apply (resolved_mapping_domain Scripted.services (Some Scripted.folder)
           (JObj [("cmd", JStr "${input:name}-${command:echo}")]) None (Some "launch") []
           {["input:name" := "x"; "command:echo" := "y"]}
           [Input {| prompt := "d"; value := None |};
            ExecuteCommand (Some "echo")
              (JObj [("cmd", JStr "${input:name}-${command:echo}")])]).
  vm_compute. reflexivity.
Defined.

(** X22: a fault raised while a variable is resolved is the outcome of the
    whole call, and nothing is called for the variables after it. *)
Theorem fault_stops_resolution svc folder configuration variableToCommandMap section
    pre variable post values f h h1 h2 :
  truthy configuration = true ->
  findVariables configuration [] = pre ++ variable :: post ->
  resolveLoop svc configuration variableToCommandMap (getInputs svc folder section)
              pre ∅ h = (Fulfilled (Some values), h1) ->
  resolveVariable svc configuration variableToCommandMap (getInputs svc folder section)
                  variable h1 = (Thrown f, h2) ->
  resolveWithInputAndCommands svc folder configuration variableToCommandMap section h
  = (Thrown f, h2).
Proof.
  intros Ht Hscan Hpre Hvar.
  rewrite (resolveWithInputAndCommands_reaches _ _ _ _ _ _ _ _ _ _ _ Ht Hscan Hpre).
  now apply resolveLoop_fault.
Qed.

Lemma fault_stops_resolution_witness :
  resolveWithInputAndCommands Scripted.services (Some Scripted.folder)
    (JStr "${command:echo} ${input:missing} ${command:later}") None (Some "launch") []
  = (Thrown (UndefinedVariable (Some "missing")),
     [ExecuteCommand (Some "echo")
        (JStr "${command:echo} ${input:missing} ${command:later}")]).
Proof.
  apply (fault_stops_resolution Scripted.services (Some Scripted.folder) _ None
           (Some "launch") ["command:echo"] "input:missing" ["command:later"]
           {["command:echo" := "y"]} _ []
           [ExecuteCommand (Some "echo")
              (JStr "${command:echo} ${input:missing} ${command:later}")]).
  - reflexivity.
  - reflexivity.
  - vm_compute. reflexivity.
  - reflexivity.
Defined.

(** X23: a call makes at most one service call per variable of the scan, and
    exactly one per variable when it succeeds. *)
Theorem calls_bounded_by_variables svc folder configuration variableToCommandMap section h :
  exists later,
    snd (resolveWithInputAndCommands svc folder configuration variableToCommandMap
                                     section h) = h ++ later /\
    (length later <= length (findVariables configuration []))%nat /\
    (forall m,
        fst (resolveWithInputAndCommands svc folder configuration variableToCommandMap
                                         section h) = Fulfilled (Some m) ->
        length later = length (findVariables configuration [])).
Proof.
  unfold resolveWithInputAndCommands.
  destruct (negb (truthy configuration)).
  - exists []. simpl. rewrite app_nil_r. repeat split; [lia|discriminate].
  - apply resolveLoop_calls.
Qed.

(** X24: in the mapping of a successful call, a variable has the string that
    its own resolution gave. *)
Theorem mapping_value_is_resolver_result svc folder configuration variableToCommandMap
    section pre variable post values s m h h1 h2 h' :
  truthy configuration = true ->
  findVariables configuration [] = pre ++ variable :: post ->
  resolveLoop svc configuration variableToCommandMap (getInputs svc folder section)
              pre ∅ h = (Fulfilled (Some values), h1) ->
  resolveVariable svc configuration variableToCommandMap (getInputs svc folder section)
                  variable h1 = (Fulfilled (JStr s), h2) ->
  resolveWithInputAndCommands svc folder configuration variableToCommandMap section h
  = (Fulfilled (Some m), h') ->
  m !! variable = Some s.
Proof.
  intros Ht Hscan Hpre Hvar Hrun.
  rewrite (resolveWithInputAndCommands_reaches _ _ _ _ _ _ _ _ _ _ _ Ht Hscan Hpre) in Hrun.
  cbn [resolveLoop] in Hrun. rewrite (bind_fulfilled _ _ _ _ _ Hvar) in Hrun.
  apply resolveLoop_keys in Hrun as [_ Hother].
  assert (Hnd : NoDup (findVariables configuration [])).
  { rewrite findVariables_fold. apply fold_pushNew_NoDup, NoDup_nil_2. }
  rewrite Hscan in Hnd. apply NoDup_app in Hnd as (_ & _ & Hnd).
  apply NoDup_cons in Hnd as [Hn _].
  rewrite Hother by (intros H; apply Hn, list_elem_of_In, H).
  apply lookup_insert_eq.
Qed.

Lemma mapping_value_is_resolver_result_witness :
  ({["input:name" := "x"; "command:echo" := "y"]} : gmap string string) !! "input:name"
  = Some "x".
Proof.
  apply (mapping_value_is_resolver_result Scripted.services (Some Scripted.folder)
           (JObj [("cmd", JStr "${input:name}-${command:echo}")]) None (Some "launch")
           [] "input:name" ["command:echo"] ∅ "x"
           {["input:name" := "x"; "command:echo" := "y"]}
           [] [] [Input {| prompt := "d"; value := None |}]
           [Input {| prompt := "d"; value := None |};
            ExecuteCommand (Some "echo")
              (JObj [("cmd", JStr "${input:name}-${command:echo}")])]).
  - reflexivity.
  - reflexivity.
  - reflexivity.
  - reflexivity.
  - vm_compute. reflexivity.
Defined.

Lemma calls_bounded_by_variables_witness :
  exists later,
    snd (resolveWithInputAndCommands Scripted.services (Some Scripted.folder)
           (JObj [("cmd", JStr "${input:name}-${command:echo}")]) None (Some "launch") [])
    = [] ++ later /\
    length later = 2%nat.
Proof.
  destruct (calls_bounded_by_variables Scripted.services (Some Scripted.folder)
              (JObj [("cmd", JStr "${input:name}-${command:echo}")]) None
              (Some "launch") []) as (later & Hlater & _ & Hexact).
  exists later. split; [exact Hlater|].
  apply (Hexact {["input:name" := "x"; "command:echo" := "y"]}).
  vm_compute. reflexivity.
Defined.

(** ** Callers *)

Lemma map_fold_insert_union (entries fullMapping : gmap string string) :
  map_fold (fun key value full => <[key := value]> full) fullMapping entries
  = entries ∪ fullMapping.
Proof.
  apply map_eq. intros key.
  rewrite map_fold_insert_lookup, lookup_union.
  destruct (entries !! key), (fullMapping !! key); reflexivity.
Qed.

Lemma resolveWithInteraction_run base svc folder config section variables newConfig
    known h :
  resolveAnyMap base folder config None = Fulfilled (newConfig, known) ->
  resolveWithInteraction base svc folder config section variables h
  = match resolveWithInputAndCommands svc folder newConfig variables section h with
    | (Fulfilled (Some m), h') => (Fulfilled (Some (m ∪ known)), h')
    | (Fulfilled None, h') => (Fulfilled None, h')
    | (Thrown f, h') => (Thrown f, h')
    end.
Proof.
  intros Hmap. unfold resolveWithInteraction, bind, sync. rewrite Hmap. cbn [fst snd].
  destruct (resolveWithInputAndCommands svc folder newConfig variables section h)
    as [[[m|]|f] h']; try reflexivity.
  cbn [updateMapping fst snd ret]. now rewrite map_fold_insert_union.
Qed.

(** X25: on success, [resolveWithInteraction] returns the variables of the
    first pass together with the input and command variables; where both have
    a key, the input or command value is the one returned. *)
Theorem resolveWithInteraction_merges base svc folder config section variables
    newConfig known m h h' :
  resolveAnyMap base folder config None = Fulfilled (newConfig, known) ->
  resolveWithInputAndCommands svc folder newConfig variables section h
  = (Fulfilled (Some m), h') ->
  resolveWithInteraction base svc folder config section variables h
  = (Fulfilled (Some (m ∪ known)), h') /\
  (forall key,
      (m ∪ known) !! key
      = match m !! key with
        | Some value => Some value
        | None => known !! key
        end).
Proof.
  intros Hmap Hrun. split.
  - rewrite (resolveWithInteraction_run _ _ _ _ _ _ _ _ _ Hmap). now rewrite Hrun.
  - intros key. rewrite lookup_union.
    destruct (m !! key), (known !! key); reflexivity.
Qed.

Lemma resolveWithInteraction_merges_witness :
  resolveWithInteraction ScriptedBase.base Scripted.services (Some Scripted.folder)
    (JStr "${workspaceFolder}/${input:name}") (Some "launch") None []
  = (Fulfilled
       (Some (({["input:name" := "x"]} : gmap string string)
              ∪ {["workspaceFolder" := "/w"]})),
     [Input {| prompt := "d"; value := None |}]) /\
  (forall key,
      (({["input:name" := "x"]} : gmap string string) ∪ {["workspaceFolder" := "/w"]})
        !! key
      = match ({["input:name" := "x"]} : gmap string string) !! key with
        | Some value => Some value
        | None => ({["workspaceFolder" := "/w"]} : gmap string string) !! key
        end).
Proof.
  apply (resolveWithInteraction_merges ScriptedBase.base Scripted.services
           (Some Scripted.folder) (JStr "${workspaceFolder}/${input:name}")
           (Some "launch") None (JStr "${workspaceFolder}/${input:name}")).
  - reflexivity.
  - vm_compute. reflexivity.
Defined.

(** X26: when the input and command pass gives no mapping (a cancelled prompt,
    an empty answer, a command without result) [resolveWithInteraction] returns
    [undefined], without the variables of the first pass; a fault of that pass
    is its outcome. *)
Theorem resolveWithInteraction_passes_failure_on base svc folder config section variables
    newConfig known h h' :
  resolveAnyMap base folder config None = Fulfilled (newConfig, known) ->
  (resolveWithInputAndCommands svc folder newConfig variables section h
   = (Fulfilled None, h') ->
   resolveWithInteraction base svc folder config section variables h
   = (Fulfilled None, h')) /\
  (forall f,
      resolveWithInputAndCommands svc folder newConfig variables section h
      = (Thrown f, h') ->
      resolveWithInteraction base svc folder config section variables h
      = (Thrown f, h')).
Proof.
  intros Hmap.
  rewrite (resolveWithInteraction_run _ _ _ _ _ _ _ _ _ Hmap).
  split; [intros Hrun|intros f Hrun]; now rewrite Hrun.
Qed.

Lemma resolveWithInteraction_passes_failure_on_witness :
  resolveWithInteraction ScriptedBase.base Scripted.services (Some Scripted.folder)
    (JStr "${workspaceFolder}/${input:second}") (Some "launch") None []
  = (Fulfilled None, [Input {| prompt := "cancel"; value := Some (JStr "foo") |}]).
Proof.
  apply (proj1 (resolveWithInteraction_passes_failure_on ScriptedBase.base
                  Scripted.services (Some Scripted.folder)
                  (JStr "${workspaceFolder}/${input:second}") (Some "launch") None
                  (JStr "${workspaceFolder}/${input:second}")
                  {["workspaceFolder" := "/w"]} []
                  [Input {| prompt := "cancel"; value := Some (JStr "foo") |}]
                  eq_refl)).
  reflexivity.
Defined.

(** X27: a configuration that is left without dollar sign by the first pass
    needs no interaction: [resolveWithInteraction] returns the variables of the
    first pass, executes no command and shows no prompt and no pick list,
    whatever the lookup of the declared inputs gives. *)
Theorem resolveWithInteraction_without_variables base svc folder config section variables
    newConfig known h :
  resolveAnyMap base folder config None = Fulfilled (newConfig, known) ->
  truthy newConfig = true ->
  (forall s, In s (stringsIn newConfig) -> allChars (notChar "$") s = true) ->
  resolveWithInteraction base svc folder config section variables h
  = (Fulfilled (Some known), h).
Proof.
  intros Hmap Ht Hplain.
  rewrite (resolveWithInteraction_run _ _ _ _ _ _ _ _ _ Hmap).
  unfold resolveWithInputAndCommands.
  rewrite Ht, findVariables_fold, (occurrences_plain _ Hplain).
  cbn [negb fold_left resolveLoop ret]. now rewrite (left_id_L ∅ (∪)).
Qed.

Lemma resolveWithInteraction_without_variables_witness :
  resolveWithInteraction ScriptedBase.base Scripted.services (Some Scripted.folder)
    (JObj [("program", JStr "main.js")]) (Some "launch") None
    [ExecuteCommand (Some "earlier") JNull]
  = (Fulfilled (Some {["workspaceFolder" := "/w"]}),
     [ExecuteCommand (Some "earlier") JNull]).
Proof.
  apply (resolveWithInteraction_without_variables ScriptedBase.base Scripted.services
           (Some Scripted.folder) (JObj [("program", JStr "main.js")]) (Some "launch")
           None (JObj [("program", JStr "main.js")])).
  - reflexivity.
  - reflexivity.
  - intros s [<-|[]]. reflexivity.
Defined.

Lemma resolveWithInteractionReplace_run base svc folder config section variables
    config1 config2 known h :
  resolveAny base folder config None = Fulfilled config1 ->
  resolveAnyMap base folder config1 None = Fulfilled (config2, known) ->
  resolveWithInteractionReplace base svc folder config section variables h
  = match resolveWithInputAndCommands svc folder config2 variables section h with
    | (Fulfilled (Some m), h') =>
        (if (0 <? size (m ∪ known))%nat
         then resolveAny base folder config1 (Some (m ∪ known))
         else Fulfilled config1, h')
    | (Fulfilled None, h') => (Fulfilled JNull, h')
    | (Thrown f, h') => (Thrown f, h')
    end.
Proof.
  intros Hany Hmap. unfold resolveWithInteractionReplace.
  unfold bind at 1. unfold sync at 1. rewrite Hany.
  unfold bind. rewrite (resolveWithInteraction_run _ _ _ _ _ _ _ _ _ Hmap).
  destruct (resolveWithInputAndCommands svc folder config2 variables section h)
    as [[[m|]|f] h']; try reflexivity.
  unfold fromMap, sync, ret. now destruct (0 <? size (m ∪ known))%nat.
Qed.



(** X29: after a successful input and command pass,
    [resolveWithInteractionReplace] substitutes the merged mapping into the
    configuration that its own first pass produced; with an empty merged
    mapping it returns that configuration as it is. *)
Theorem resolveWithInteractionReplace_substitutes base svc folder config section variables
    config1 config2 known m h h' :
  resolveAny base folder config None = Fulfilled config1 ->
  resolveAnyMap base folder config1 None = Fulfilled (config2, known) ->
  resolveWithInputAndCommands svc folder config2 variables section h
  = (Fulfilled (Some m), h') ->
  resolveWithInteractionReplace base svc folder config section variables h
  = (if (0 <? size (m ∪ known))%nat
     then resolveAny base folder config1 (Some (m ∪ known))
     else Fulfilled config1, h').
Proof.
  intros Hany Hmap Hrun.
  rewrite (resolveWithInteractionReplace_run _ _ _ _ _ _ _ _ _ _ Hany Hmap).
  now rewrite Hrun.
Qed.

Lemma resolveWithInteractionReplace_substitutes_witness :
  resolveWithInteractionReplace ScriptedBase.base Scripted.services
    (Some Scripted.folder) (JStr "${workspaceFolder}/${input:name}") (Some "launch") None []
  = (Fulfilled (JArr [JNum 2; JStr "${workspaceFolder}/${input:name}"]),
     [Input {| prompt := "d"; value := None |}]).
Proof.
  exact (resolveWithInteractionReplace_substitutes ScriptedBase.base Scripted.services
           (Some Scripted.folder) (JStr "${workspaceFolder}/${input:name}")
           (Some "launch") None
           (JStr "${workspaceFolder}/${input:name}")
           (JStr "${workspaceFolder}/${input:name}")
           {["workspaceFolder" := "/w"]} {["input:name" := "x"]} []
           [Input {| prompt := "d"; value := None |}]
           eq_refl eq_refl eq_refl).
Defined.

(** X30: when the input and command pass is cancelled,
    [resolveWithInteractionReplace] returns [null] and the substitution pass
    does not run; a fault of the pass is its outcome. *)
Theorem resolveWithInteractionReplace_cancelled base svc folder config section variables
    config1 config2 known h h' :
  resolveAny base folder config None = Fulfilled config1 ->
  resolveAnyMap base folder config1 None = Fulfilled (config2, known) ->
  (resolveWithInputAndCommands svc folder config2 variables section h
   = (Fulfilled None, h') ->
   resolveWithInteractionReplace base svc folder config section variables h
   = (Fulfilled JNull, h')) /\
  (forall f,
      resolveWithInputAndCommands svc folder config2 variables section h
      = (Thrown f, h') ->
      resolveWithInteractionReplace base svc folder config section variables h
      = (Thrown f, h')).
Proof.
  intros Hany Hmap.
  rewrite (resolveWithInteractionReplace_run _ _ _ _ _ _ _ _ _ _ Hany Hmap).
  split; [intros Hrun|intros f Hrun]; now rewrite Hrun.
Qed.

Lemma resolveWithInteractionReplace_cancelled_witness :
  resolveWithInteractionReplace ScriptedBase.base Scripted.services
    (Some Scripted.folder) (JStr "${input:blank} ${command:echo}") (Some "launch") None []
  = (Fulfilled JNull, [Input {| prompt := "empty"; value := None |}]).
Proof.
  apply (proj1 (resolveWithInteractionReplace_cancelled ScriptedBase.base
                  Scripted.services (Some Scripted.folder)
                  (JStr "${input:blank} ${command:echo}") (Some "launch") None
                  (JStr "${input:blank} ${command:echo}")
                  (JStr "${input:blank} ${command:echo}")
                  {["workspaceFolder" := "/w"]} []
                  [Input {| prompt := "empty"; value := None |}] eq_refl eq_refl)).
  reflexivity.
Defined.
